(** * The reversi back end (src/modules/reversi/back.ts)

    A shallow embedding of the [Session] class that runs in the child
    process of the bot: the handlers of the four parent messages
    ([_init_], [started], [ended], [log]), the [think] procedure with its
    request to the inference service, the publisher [post], and the
    response decoder of [executeCurlCommand].

    The process is single threaded.  Every [await] in the source is a
    point where the handler is suspended and another event may be handled;
    the model makes each such point an event of its own, so the
    interleavings of the event loop are the lists of [event]. *)

From Stdlib Require Import ZArith List String Ascii Bool Lia.
Import ListNotations.

Local Open Scope string_scope.
Local Open Scope Z_scope.

(** ** JavaScript strings and numbers used by the file *)

Module Js.

(** A string of the model is the UTF-8 form of the JavaScript string: one
    [ascii] is one byte, and a character outside ASCII is its two to four
    bytes.  (The texts that reach the file are well-formed: [exec] and
    [response.text()] decode bytes as UTF-8.) *)

(** The white space removed by [String.prototype.trim] and skipped by
    [parseInt]: the characters WhiteSpace and LineTerminator of the
    language, by the length of their UTF-8 form.  One byte: U+0009 to
    U+000D and U+0020. *)
Definition space1 (a : ascii) : bool :=
  let x := nat_of_ascii a in
  ((9 <=? x) && (x <=? 13))%nat || (x =? 32)%nat.

(** Two bytes: U+00A0 (C2 A0). *)
Definition space2 (a b : ascii) : bool :=
  ((nat_of_ascii a =? 194) && (nat_of_ascii b =? 160))%nat.

(** Three bytes: U+1680 (E1 9A 80); U+2000 to U+200A, U+2028, U+2029 and
    U+202F (E2 80 80 to 8A, A8, A9, AF); U+205F (E2 81 9F); U+3000
    (E3 80 80); U+FEFF (EF BB BF). *)
Definition space3 (a b c : ascii) : bool :=
  let x := nat_of_ascii a in
  let y := nat_of_ascii b in
  let z := nat_of_ascii c in
  ((x =? 225) && (y =? 154) && (z =? 128)
   || (x =? 226) && (y =? 128)
      && ((128 <=? z) && (z <=? 138) || (z =? 168) || (z =? 169)
          || (z =? 175))
   || (x =? 226) && (y =? 129) && (z =? 159)
   || (x =? 227) && (y =? 128) && (z =? 128)
   || (x =? 239) && (y =? 187) && (z =? 191))%nat.

Definition is_digit (c : ascii) : bool :=
  let n := nat_of_ascii c in
  ((48 <=? n) && (n <=? 57))%nat.

(** The text without the white space in front. *)
Fixpoint drop_space (l : list ascii) : list ascii :=
  match l with
  | [] => []
  | a :: r1 =>
      if space1 a then drop_space r1
      else
        match r1 with
        | [] => l
        | b :: r2 =>
            if space2 a b then drop_space r2
            else
              match r2 with
              | [] => l
              | c :: r3 => if space3 a b c then drop_space r3 else l
              end
        end
  end.

(** The same from the end: [l] is the text with its bytes reversed, so a
    character is met last byte first. *)
Fixpoint drop_space_end (l : list ascii) : list ascii :=
  match l with
  | [] => []
  | c :: r1 =>
      if space1 c then drop_space_end r1
      else
        match r1 with
        | [] => l
        | b :: r2 =>
            if space2 b c then drop_space_end r2
            else
              match r2 with
              | [] => l
              | a :: r3 => if space3 a b c then drop_space_end r3 else l
              end
        end
  end.

(** [s.trim()] *)
Definition trim (s : string) : string :=
  string_of_list_ascii
    (rev (drop_space_end (rev (drop_space (list_ascii_of_string s))))).

Fixpoint digits_prefix (l : list ascii) : list ascii :=
  match l with
  | c :: r => if is_digit c then c :: digits_prefix r else []
  | [] => []
  end.

Definition digit_val (c : ascii) : Z := Z.of_nat (nat_of_ascii c) - 48.

Definition decimal_value (ds : list ascii) : Z :=
  fold_left (fun acc c => 10 * acc + digit_val c) ds 0.

(** [parseInt(s, 10)]: leading white space is skipped, one sign is
    read, then the longest run of decimal digits; what follows the digits
    is ignored.  [None] is [NaN].  The result is a JavaScript number; it
    is kept here as the exact integer, which agrees with the number on
    every comparison with 0 and 63 and on every value in that range
    (the number [-0] is the integer 0). *)
Definition parseInt (s : string) : option Z :=
  let l := drop_space (list_ascii_of_string s) in
  let '(neg, l) :=
    match l with
    | "-"%char :: r => (true, r)
    | "+"%char :: r => (false, r)
    | _ => (false, l)
    end in
  match digits_prefix l with
  | [] => None
  | ds => Some (if neg then - decimal_value ds else decimal_value ds)
  end.

(** [s.endsWith(x)] *)
Definition endsWith (s x : string) : bool :=
  let n := String.length s in
  let m := String.length x in
  (m <=? n)%nat && String.eqb (substring (n - m) m s) x.

(** [a.some(p)] and [a.includes(x)] on arrays of strings *)
Definition includes (a : list string) (x : string) : bool :=
  existsb (String.eqb x) a.

(** Truthiness of a string: the empty string is falsy. *)
Definition truthy_string (s : string) : bool :=
  negb (String.eqb s EmptyString).

(** A thrown [Error] object: the file throws nothing else. *)
Inductive Error := MkError (message : string).

Definition message (e : Error) : string :=
  match e with MkError m => m end.

(** One line written by [console.log] or [console.error]. *)
Inductive ConsoleLine :=
| ConsoleLog (what : string) (arg : string)
| ConsoleError (what : string) (arg : string).

End Js.

(** ** The imports of back.ts *)

(** Modelled from the spec: [./engine.js] is not among the sources.  The
    file types [botColor] as [Reversi.Color] and assigns it a boolean, which is
    [true] exactly when the account holds black, and compares it with
    [engine.turn]; the spec calls the automated color a boolean and black
    the first color.  So a color is a boolean and black is [true]. *)
Definition Color := bool.
Definition BLACK : Color := true.
Definition WHITE : Color := false.

(** A cell of [engine.map]: the strings ['null'] and ['empty']. *)
Inductive MapCell := MapNull | MapEmpty.

(** A cell of [engine.board]: [null], [undefined] or a color. *)
Inductive Cell := CellNull | CellUndefined | CellStone (c : Color).

(** What the file hands to [engine.putStone]: [log.pos] of a log message
    (a number) or, in [think], the text of the HTTP response as it is. *)
Inductive Pos := PosNum (n : Z) | PosStr (s : string).

Record Options := {
  opt_isLlotheo : bool;
  opt_canPutEverywhere : bool;
  opt_loopedBoard : bool
}.

(** The rules engine as the file uses it: the constructor
    [new Reversi.Game(map, opts)], the fields [map], [board] and [turn], and
    the mutator [putStone].  The engine is not among the sources and stays
    a parameter of the development. *)
Class ReversiEngine := {
  EngineGame : Type;
  newGame : list string -> Options -> EngineGame;
  engine_map : EngineGame -> list MapCell;
  engine_board : EngineGame -> list Cell;
  engine_turn : EngineGame -> option Color;
  putStone : EngineGame -> Pos -> EngineGame
}.

(** [@/config.js]: the two settings the file reads. *)
Class Config := {
  config_host : string;
  config_i : string
}.

(** [@/serifs.js]: the eight templates of [serifs.reversi] that [onEnded]
    chooses from.  A text is kept as the template and its argument. *)
Inductive Serif :=
| settaiButYouSurrendered | youSurrendered
| iWonButSettai | iWon
| iLoseButSettai | iLose
| drawnSettai | drawn.

Record Text := { text_serif : Serif; text_userName : string }.

(** ** Messages of the parent process *)

Record User := {
  user_id : string;
  user_name : option string;
  user_username : string
}.

Record Game := {
  game_id : string;
  user1Id : string;
  user2Id : string;
  user1 : User;
  user2 : User;
  black : Z;
  game_map : list string;
  isLlotheo : bool;
  canPutEverywhere : bool;
  loopedBoard : bool;
  game_turn : option Color;
  surrendered : bool
}.

Record FormItem := { item_id : string; item_value : bool }.

Record InitBody := {
  init_game : Game;
  init_form : list FormItem;
  init_account : User
}.

Record StartedBody := { started_game : Game }.

Record EndedBody := { ended_game : Game; winnerId : option string }.

Record LogBody := {
  log_id : option string;
  log_operation : string;
  log_pos : Pos
}.

(** [msg.type] with [msg.body]; a type that [onMessage] has no case for is
    [MsgOther]. *)
Inductive Msg :=
| MsgInit (body : InitBody)
| MsgStarted (body : StartedBody)
| MsgEnded (body : EndedBody)
| MsgLog (body : LogBody)
| MsgOther (type : string).

(** ** The process around the session *)

(** [process.send({type: 'ended'})] is the only message the file sends. *)
Inductive OutMsg := OutEnded.

(** The form fields of the request that [think] sends with [fetch]. *)
Record FetchRequest := { req_board : string; req_turn : string }.

(** The JSON body that [post] sends to [api/notes/create]. *)
Record PostBody := {
  body_i : string;
  body_text : Text;
  body_visibility : string;
  body_renoteId : option string
}.

(** What the handlers do to the world outside the session object:
    [sent] the messages given to [process.send], [exited] whether
    [process.exit] was called, [console] the lines written, [fetches] the
    requests issued by [think] (one for each call of [think]) and
    [inflight] how many of them have not settled, [posts] the requests
    issued by [post], and [ending] the calls of [onEnded] that are
    suspended at [await this.post(...)], each with whether a request is
    outstanding for it.  A call that may not publish waits for no request,
    but it too is resumed only after its handler has returned; the model
    lets any event come before the resumption, which covers every order
    the event loop can take. *)
Record Process := {
  sent : list OutMsg;
  exited : bool;
  console : list Js.ConsoleLine;
  fetches : list FetchRequest;
  inflight : nat;
  posts : list PostBody;
  ending : list bool
}.

Definition new_process : Process :=
  {| sent := []; exited := false; console := []; fetches := [];
     inflight := 0%nat; posts := []; ending := [] |}.

Definition process_send (m : OutMsg) (p : Process) : Process :=
  {| sent := sent p ++ [m]; exited := exited p; console := console p;
     fetches := fetches p; inflight := inflight p; posts := posts p;
     ending := ending p |}.

Definition process_exit (p : Process) : Process :=
  {| sent := sent p; exited := true; console := console p;
     fetches := fetches p; inflight := inflight p; posts := posts p;
     ending := ending p |}.

Definition console_write (l : Js.ConsoleLine) (p : Process) : Process :=
  {| sent := sent p; exited := exited p; console := console p ++ [l];
     fetches := fetches p; inflight := inflight p; posts := posts p;
     ending := ending p |}.

Definition fetch_put (r : FetchRequest) (p : Process) : Process :=
  {| sent := sent p; exited := exited p; console := console p;
     fetches := fetches p ++ [r]; inflight := S (inflight p);
     posts := posts p; ending := ending p |}.

Definition fetch_settled (p : Process) : Process :=
  {| sent := sent p; exited := exited p; console := console p;
     fetches := fetches p; inflight := pred (inflight p);
     posts := posts p; ending := ending p |}.

Definition got_post (b : PostBody) (p : Process) : Process :=
  {| sent := sent p; exited := exited p; console := console p;
     fetches := fetches p; inflight := inflight p;
     posts := posts p ++ [b]; ending := ending p |}.

Definition await_post (outstanding : bool) (p : Process) : Process :=
  {| sent := sent p; exited := exited p; console := console p;
     fetches := fetches p; inflight := inflight p;
     posts := posts p; ending := ending p ++ [outstanding] |}.

(** How a request of [think] settles: [fetch] rejects, or it resolves with a
    response whose [ok], [status] and body text are given; the text is an
    error when [response.text()] rejects. *)
Inductive FetchResult :=
| FetchRejected (e : string)
| FetchResponse (ok : bool) (status : string) (text : string + string).

(** The events of the event loop: a message of the parent, a request of
    [think] that settles, and the [await] of the [k]-th suspended [onEnded]
    that resumes ([failure] is the error of its request, if it failed). *)
Inductive event :=
| Message (m : Msg)
| FetchSettled (r : FetchResult)
| PostSettled (k : nat) (failure : option string).

(** A note as far as the file reads it: [renote.id]. *)
Record Note := { note_id : string }.

Notation "x <- c1 ;; c2" :=
  (match c1 with Some x => c2 | None => None end)
  (at level 61, c1 at next level, right associativity).

(** [getUserName] *)
Definition getUserName (user : User) : string :=
  match user_name user with
  | Some n => if Js.truthy_string n then n else user_username user
  | None => user_username user
  end.

Definition titles : list string :=
  [ "さん"; "サン"; "ｻﾝ"; "㌠";
    "ちゃん"; "チャン"; "ﾁｬﾝ";
    "君"; "くん"; "クン"; "ｸﾝ";
    "先生"; "せんせい"; "センセイ"; "ｾﾝｾｲ" ].

(** The condition of [executeCurlCommand] on the text it read, and the
    error it throws: one [throw] for a text that is no number and for a
    number outside 0..63. *)
Definition invalidResponse (stdout : string) : Js.Error :=
  Js.MkError ("Invalid response from server: " ++ stdout).

Definition decodeResponse (stdout : string) : Js.Error + Z :=
  match Js.parseInt (Js.trim stdout) with
  | None => inl (invalidResponse stdout)
  | Some response =>
      if (response <? 0) || (response >? 63)
      then inl (invalidResponse stdout)
      else inr response
  end.

(** How [exec] settles: it rejects, or it resolves with the two outputs. *)
Inductive ExecResult :=
| ExecRejected (e : Js.Error)
| ExecDone (stdout stderr : string).

(** [executeCurlCommand]: the lines it writes and what it returns or
    throws.  Every error is written and thrown again by the [catch]. *)
Definition executeCurlCommand (r : ExecResult)
  : list Js.ConsoleLine * (Js.Error + Z) :=
  let body :=
    match r with
    | ExecRejected e => inl e
    | ExecDone stdout stderr =>
        if Js.truthy_string stderr
        then inl (Js.MkError ("Error executing curl command: " ++ stderr))
        else decodeResponse stdout
    end in
  match body with
  | inl error =>
      ([Js.ConsoleError "Error in executeCurlCommand:" (Js.message error)],
       inl error)
  | inr response => ([], inr response)
  end.

(** ** The session *)

Section Back.

Context {reversi : ReversiEngine} {config : Config}.

(** The fields of [class Session].  A field that has been given no value
    yet ([undefined]) is [None]. *)
Record Session := {
  account : option User;
  game : option Game;
  form : option (list FormItem);
  engine : option EngineGame;
  botColor : option Color;
  appliedOps : list string;
  maxTurn : option Z;
  currentTurn : Z;
  startedNote : option Note
}.

(** The session and the process it runs in. *)
Record State := { session : Session; process : Process }.

(** [new Session()] in a process that has done nothing yet. *)
Definition new_session : Session :=
  {| account := None; game := None; form := None; engine := None;
     botColor := None; appliedOps := []; maxTurn := None;
     currentTurn := 0; startedNote := None |}.

Definition initial : State :=
  {| session := new_session; process := new_process |}.

Definition set_game (g : Game) (s : Session) : Session :=
  {| account := account s; game := Some g; form := form s;
     engine := engine s; botColor := botColor s;
     appliedOps := appliedOps s; maxTurn := maxTurn s;
     currentTurn := currentTurn s; startedNote := startedNote s |}.

Definition set_engine (e : EngineGame) (s : Session) : Session :=
  {| account := account s; game := game s; form := form s;
     engine := Some e; botColor := botColor s;
     appliedOps := appliedOps s; maxTurn := maxTurn s;
     currentTurn := currentTurn s; startedNote := startedNote s |}.

Definition set_maxTurn (n : Z) (s : Session) : Session :=
  {| account := account s; game := game s; form := form s;
     engine := engine s; botColor := botColor s;
     appliedOps := appliedOps s; maxTurn := Some n;
     currentTurn := currentTurn s; startedNote := startedNote s |}.

Definition set_botColor (c : Color) (s : Session) : Session :=
  {| account := account s; game := game s; form := form s;
     engine := engine s; botColor := Some c;
     appliedOps := appliedOps s; maxTurn := maxTurn s;
     currentTurn := currentTurn s; startedNote := startedNote s |}.

(** [this.currentTurn++] *)
Definition incr_currentTurn (s : Session) : Session :=
  {| account := account s; game := game s; form := form s;
     engine := engine s; botColor := botColor s;
     appliedOps := appliedOps s; maxTurn := maxTurn s;
     currentTurn := currentTurn s + 1; startedNote := startedNote s |}.

(** *** Getters *)

(** [get user]: the other player.  Reading [this.game.user1Id] or
    [this.account.id] of an undefined field throws. *)
Definition user (s : Session) : option User :=
  g <- game s ;;
  a <- account s ;;
  Some (if String.eqb (user1Id g) (user_id a) then user2 g else user1 g).

(** [get userName] *)
Definition userName (s : Session) : option string :=
  u <- user s ;;
  let name := getUserName u in
  Some ("?[" ++ name ++ "](" ++ config_host ++ "/@" ++ user_username u
        ++ ")"
        ++ (if existsb (Js.endsWith name) titles then EmptyString
            else "さん")).

(** [get allowPost]: [find] gives [undefined] when no item has the id, and
    reading [value] of it throws. *)
Definition allowPost (s : Session) : option bool :=
  f <- form s ;;
  i <- find (fun i => String.eqb (item_id i) "publish") f ;;
  Some (item_value i).

(** [this.isSettai].  The class declares no member of this name, neither a
    field nor a getter, and nothing assigns one, so the property read
    gives [undefined], which every [if (this.isSettai)] takes as false. *)
Definition isSettai (s : Session) : bool := false.

(** *** think *)

(** [boardStateToString] *)
Definition cellToString (cell : Cell) : string :=
  match cell with
  | CellNull => "0"
  | CellStone c => if Bool.eqb c BLACK then "1" else "2"
  | CellUndefined => "2"
  end.

Definition boardStateToString (e : EngineGame) : string :=
  concat EmptyString (map cellToString (engine_board e)).

(** [this.game.turn === Reversi.BLACK ? 0 : 1], printed by [toString] *)
Definition turnValue (g : Game) : string :=
  match game_turn g with
  | Some c => if Bool.eqb c BLACK then "0" else "1"
  | None => "1"
  end.

(** [think] up to its first [await]: the board and the turn are read and
    the request is sent.  The rest of the function runs when the request
    settles ([think_resume]). *)
Definition think (st : State) : option State :=
  e <- engine (session st) ;;
  g <- game (session st) ;;
  Some {| session := session st;
          process := fetch_put {| req_board := boardStateToString e;
                                  req_turn := turnValue g |}
                               (process st) |}.

Definition think_failed (error : string) (st : State) : State :=
  {| session := session st;
     process := console_write
                  (Js.ConsoleError "Error sending request:" error)
                  (process st) |}.

(** [think] from the point where [fetch] has settled.  The two [await]s
    (the response, then its text) are taken in one step: no field of the
    session is read or written between them.  [status] is the text that
    the template prints for [response.status]. *)
Definition think_resume (r : FetchResult) (st : State) : State :=
  match r with
  | FetchRejected error => think_failed error st
  | FetchResponse false status _ =>
      think_failed ("HTTP error! status: " ++ status) st
  | FetchResponse true _ (inr error) => think_failed error st
  | FetchResponse true _ (inl nextMove) =>
      let p := console_write (Js.ConsoleLog "Curl response:" nextMove)
                             (process st) in
      match engine (session st) with
      | None =>
          think_failed "Cannot read properties of undefined"
                       {| session := session st; process := p |}
      | Some e =>
          {| session :=
               incr_currentTurn
                 (set_engine (putStone e (PosStr nextMove)) (session st));
             process := p |}
      end
  end.

(** *** The handlers *)

(** [onInit] *)
Definition onInit (msg : InitBody) (st : State) : State :=
  let s := session st in
  {| session :=
       {| account := Some (init_account msg);
          game := Some (init_game msg);
          form := Some (init_form msg);
          engine := engine s; botColor := botColor s;
          appliedOps := appliedOps s; maxTurn := maxTurn s;
          currentTurn := currentTurn s; startedNote := startedNote s |};
     process := process st |}.

Definition count_empty (m : list MapCell) : Z :=
  Z.of_nat (List.length
    (filter (fun p => match p with MapEmpty => true | MapNull => false end) m)).

Definition count_stones (b : list Cell) : Z :=
  Z.of_nat (List.length
    (filter (fun x => match x with CellStone _ => true | _ => false end) b)).

(** The value that [onStarted] gives to [botColor]. *)
Definition holdsBlack (g : Game) (a : User) : bool :=
  String.eqb (user1Id g) (user_id a) && (black g =? 1)
  || String.eqb (user2Id g) (user_id a) && (black g =? 2).

(** [onStarted].  [process.exit()] does not return, so with
    [canPutEverywhere] nothing after the [if] is run. *)
Definition onStarted (msg : StartedBody) (st : State) : option State :=
  let g := started_game msg in
  let s := set_game g (session st) in
  if canPutEverywhere g then
    Some {| session := s;
            process := process_exit (process_send OutEnded (process st)) |}
  else
    let e := newGame (game_map g)
               {| opt_isLlotheo := isLlotheo g;
                  opt_canPutEverywhere := canPutEverywhere g;
                  opt_loopedBoard := loopedBoard g |} in
    let s := set_engine e s in
    let s := set_maxTurn
               (count_empty (engine_map e) - count_stones (engine_board e))
               s in
    a <- account s ;;
    let s := set_botColor (holdsBlack g a) s in
    let st' := {| session := s; process := process st |} in
    if holdsBlack g a then think st' else Some st'.

(** The template that [onEnded] chooses. *)
Definition outcome (settai : bool) (msg : EndedBody) (self : User) : Serif :=
  if surrendered (ended_game msg) then
    if settai then settaiButYouSurrendered else youSurrendered
  else
    match winnerId msg with
    | Some w =>
        if Js.truthy_string w then
          if String.eqb w (user_id self) then
            if settai then iWonButSettai else iWon
          else
            if settai then iLoseButSettai else iLose
        else
          if settai then drawnSettai else drawn
    | None =>
        if settai then drawnSettai else drawn
    end.

(** [post] up to its [await]: with [allowPost] the request is sent. *)
Definition post (text : Text) (renote : option Note) (st : State)
  : option State :=
  allow <- allowPost (session st) ;;
  if allow then
    let body := {| body_i := config_i;
                   body_text := text;
                   body_visibility := "home";
                   body_renoteId :=
                     match renote with
                     | Some n => Some (note_id n)
                     | None => None
                     end |} in
    Some {| session := session st;
            process := await_post true (got_post body (process st)) |}
  else
    Some {| session := session st;
            process := await_post false (process st) |}.

(** [onEnded] up to [await this.post(...)]. *)
Definition onEnded (msg : EndedBody) (st : State) : option State :=
  let st := {| session := session st;
               process := process_send OutEnded (process st) |} in
  self <- account (session st) ;;
  name <- userName (session st) ;;
  let text := {| text_serif := outcome (isSettai (session st)) msg self;
                 text_userName := name |} in
  post text (startedNote (session st)) st.

(** [onEnded] after the [await]: an error of the request is written by
    the [catch] of [post], then the process exits. *)
Definition onEnded_resume (outstanding : bool) (failure : option string)
    (st : State) : State :=
  let p :=
    match outstanding, failure with
    | true, Some e =>
        console_write (Js.ConsoleError EmptyString e) (process st)
    | _, _ => process st
    end in
  {| session := session st; process := process_exit p |}.

(** [this.engine.turn === this.botColor] *)
Definition turn_is (t : option Color) (c : option Color) : bool :=
  match t, c with
  | Some a, Some b => Bool.eqb a b
  | _, _ => false
  end.

(** The condition of [onLog]:
    [log.id == null || !this.appliedOps.includes(log.id)] *)
Definition notApplied (s : Session) (log : LogBody) : bool :=
  match log_id log with
  | None => true
  | Some id => negb (Js.includes (appliedOps s) id)
  end.

(** [onLog] *)
Definition onLog (log : LogBody) (st : State) : option State :=
  if notApplied (session st) log then
    if String.eqb (log_operation log) "put" then
      e <- engine (session st) ;;
      let e' := putStone e (log_pos log) in
      let s := incr_currentTurn (set_engine e' (session st)) in
      let st' := {| session := s; process := process st |} in
      if turn_is (engine_turn e') (botColor s) then think st' else Some st'
    else Some st
  else Some st.

(** [onMessage] *)
Definition onMessage (msg : Msg) (st : State) : option State :=
  match msg with
  | MsgInit body => Some (onInit body st)
  | MsgStarted body => onStarted body st
  | MsgEnded body => onEnded body st
  | MsgLog body => onLog body st
  | MsgOther _ => Some st
  end.

(** *** The event loop *)

(** One event.  After [process.exit] there is no process and nothing is
    handled.  [None] is a handler that throws on a field that is still
    undefined; [run_defined] below says when that cannot happen. *)
Definition step (st : State) (ev : event) : option State :=
  if exited (process st) then Some st
  else
    match ev with
    | Message m => onMessage m st
    | FetchSettled r =>
        match inflight (process st) with
        | O => Some st
        | S _ =>
            Some (think_resume r
                    {| session := session st;
                       process := fetch_settled (process st) |})
        end
    | PostSettled k failure =>
        match nth_error (ending (process st)) k with
        | None => Some st
        | Some outstanding => Some (onEnded_resume outstanding failure st)
        end
    end.

Fixpoint run (st : State) (evs : list event) : option State :=
  match evs with
  | [] => Some st
  | ev :: rest => st' <- step st ev ;; run st' rest
  end.

(** The number of calls of [think] so far: each call issues one request. *)
Definition thinkCalls (st : State) : nat := List.length (fetches (process st)).

(** *** What the claims speak of *)

(** The event makes a handler call [think]: [started] without free
    placement when the account holds black, or a log message that passes
    the condition of [onLog], is a ['put'], and leaves the turn with
    [botColor]. *)
Definition triggers (st : State) (ev : event) : bool :=
  negb (exited (process st)) &&
  match ev with
  | Message (MsgStarted msg) =>
      negb (canPutEverywhere (started_game msg)) &&
      match account (session st) with
      | Some a => holdsBlack (started_game msg) a
      | None => false
      end
  | Message (MsgLog log) =>
      notApplied (session st) log &&
      String.eqb (log_operation log) "put" &&
      match engine (session st) with
      | Some e =>
          turn_is (engine_turn (putStone e (log_pos log)))
                  (botColor (session st))
      | None => false
      end
  | _ => false
  end.

(** The event applies an operation to the engine: a log message that
    passes the condition of [onLog] and is a ['put'], or a request of
    [think] that settles with a successful response and a body. *)
Definition applies (st : State) (ev : event) : bool :=
  negb (exited (process st)) &&
  match ev with
  | Message (MsgLog log) =>
      notApplied (session st) log && String.eqb (log_operation log) "put"
  | FetchSettled (FetchResponse true _ (inl _)) =>
      (0 <? inflight (process st))%nat &&
      match engine (session st) with Some _ => true | None => false end
  | _ => false
  end.

(** How many events of a run satisfy [p] in the state they arrive in. *)
Fixpoint countEvents (p : State -> event -> bool) (st : State)
    (evs : list event) : nat :=
  match evs with
  | [] => 0
  | ev :: rest =>
      match step st ev with
      | Some st' => ((if p st ev then 1 else 0) + countEvents p st' rest)%nat
      | None => 0%nat
      end
  end.

(** The value [onStarted] gives to [maxTurn] for the game [g]. *)
Definition maxTurnOf (g : Game) : Z :=
  let e := newGame (game_map g)
             {| opt_isLlotheo := isLlotheo g;
                opt_canPutEverywhere := canPutEverywhere g;
                opt_loopedBoard := loopedBoard g |} in
  count_empty (engine_map e) - count_stones (engine_board e).

(** The session has what the handlers read: the fields of [_init_] with a
    ['publish'] item in the form, and an engine. *)
Definition established (st : State) : Prop :=
  account (session st) <> None /\ game (session st) <> None /\
  allowPost (session st) <> None /\ engine (session st) <> None.

Definition well_formed (ev : event) : Prop :=
  match ev with
  | Message (MsgInit body) =>
      find (fun i => String.eqb (item_id i) "publish") (init_form body)
      <> None
  | _ => True
  end.

(** The templates of the exhibition (settai) mode. *)
Definition exhibition (k : Serif) : bool :=
  match k with
  | settaiButYouSurrendered | iWonButSettai | iLoseButSettai
  | drawnSettai => true
  | _ => false
  end.

(** The fields that no handler writes. *)
Definition untouched (st : State) : Prop :=
  appliedOps (session st) = [] /\ startedNote (session st) = None.

(** The engine, once built, stays, and it is built only after the game
    and the account are there. *)
Definition started_fields (st : State) : Prop :=
  engine (session st) <> None ->
  game (session st) <> None /\ account (session st) <> None /\
  botColor (session st) <> None.

Definition no_renote (b : PostBody) : Prop := body_renoteId b = None.

Definition plain_text (b : PostBody) : Prop :=
  exhibition (text_serif (body_text b)) = false.

(** The kinds of events. *)
Definition is_ended (ev : event) : bool :=
  match ev with Message (MsgEnded _) => true | _ => false end.

Definition is_message (ev : event) : bool :=
  match ev with Message _ => true | _ => false end.

Definition started_of_game (g : Game) : event :=
  Message (MsgStarted {| started_game := g |}).

(** A logged stone without an id. *)
Definition unidentified_put (pos : Pos) : event :=
  Message (MsgLog {| log_id := None; log_operation := "put";
                     log_pos := pos |}).

(** *** The rest of the class, and what the further facts speak of *)

(** [get url] *)
Definition url (s : Session) : option string :=
g <- game s ;;
Some (config_host ++ "/reversi/g/" ++ game_id g).

(** The character that [boardStateToString] writes for a cell. *)
Definition cellDigit (cell : Cell) : ascii :=
match cell with
| CellNull => "0"%char
| CellStone true => "1"%char
| _ => "2"%char
end.

(** Kinds of events: the messages that give the session a game
    ([_init_], [started]), and the messages that no handler acts on (a type
    without a case in [onMessage], a log message that is no ['put']). *)
Definition is_setup (ev : event) : bool :=
match ev with
| Message (MsgInit _) | Message (MsgStarted _) => true
| _ => false
end.

Definition is_started (ev : event) : bool :=
match ev with Message (MsgStarted _) => true | _ => false end.

Definition ignored (ev : event) : bool :=
match ev with
| Message (MsgOther _) => true
| Message (MsgLog log) => negb (String.eqb (log_operation log) "put")
| _ => false
end.

(** The form of an [_init_] message allows publishing. *)
Definition publishes (body : InitBody) : bool :=
match find (fun i => String.eqb (item_id i) "publish") (init_form body) with
| Some i => item_value i
| None => false
end.

Definition silent (ev : event) : Prop :=
match ev with
| Message (MsgInit body) => publishes body = false
| _ => True
end.

(** The position that an event hands to [putStone], if it applies one. *)
Definition appliedPos (st : State) (ev : event) : option Pos :=
if applies st ev then
  match ev with
  | Message (MsgLog log) => Some (log_pos log)
  | FetchSettled (FetchResponse true _ (inl nextMove)) =>
      Some (PosStr nextMove)
  | _ => None
  end
else None.

(** The positions applied in a run, in the order of arrival. *)
Fixpoint appliedPositions (st : State) (evs : list event) : list Pos :=
match evs with
| [] => []
| ev :: rest =>
    match step st ev with
    | Some st' =>
        match appliedPos st ev with
        | Some p => p :: appliedPositions st' rest
        | None => appliedPositions st' rest
        end
    | None => []
    end
end.


(** The game that an event starts: a [started] message without free
    placement that reaches a process that has not exited. *)
Definition startsGame (st : State) (ev : event) : option Game :=
if exited (process st) then None
else
  match ev with
  | Message (MsgStarted msg) =>
      if canPutEverywhere (started_game msg) then None
      else Some (started_game msg)
  | _ => None
  end.

(** The game started last in a run, [g0] if the run starts none. *)
Fixpoint lastStarted (st : State) (evs : list event) (g0 : option Game)
  : option Game :=
match evs with
| [] => g0
| ev :: rest =>
    match step st ev with
    | Some st' =>
        lastStarted st' rest
          (match startsGame st ev with Some g => Some g | None => g0 end)
    | None => g0
    end
end.


End Back.

(** ** A small engine to run the session on *)

(** Modelled from the spec: [./engine.js] is not among the sources; this
    stand-in has the interface the spec gives the rules engine (built from
    a board map and the rule flags; place a stone at a position; whose
    turn it is; the board).  Each character of the map is a cell (['-']
    free, ['b'] and ['w'] a stone, a blank no cell); a stone is placed for
    the color to move, nothing is flipped, a position that is no cell of
    the board places nothing, and the turn passes to the other color after
    every stone.  It serves the concrete runs only: every general theorem
    is stated for an arbitrary engine. *)
Module Alternating.

Record T := { a_map : list MapCell; a_board : list Cell; a_turn : option Color }.

Definition cell_of (c : ascii) : Cell :=
  if Ascii.eqb c "-" then CellNull
  else if Ascii.eqb c "b" then CellStone BLACK
  else if Ascii.eqb c "w" then CellStone WHITE
  else CellUndefined.

Definition mapcell_of (c : ascii) : MapCell :=
  if Ascii.eqb c " " then MapNull else MapEmpty.

Definition build (rows : list string) (_ : Options) : T :=
  let cells := list_ascii_of_string (concat EmptyString rows) in
  {| a_map := map mapcell_of cells;
     a_board := map cell_of cells;
     a_turn := Some BLACK |}.

Fixpoint place (b : list Cell) (n : nat) (c : Color) : list Cell :=
  match b, n with
  | [], _ => []
  | _ :: r, O => CellStone c :: r
  | x :: r, S n' => x :: place r n' c
  end.

Definition put (g : T) (pos : Pos) : T :=
  match a_turn g with
  | None => g
  | Some c =>
      {| a_map := a_map g;
         a_board :=
           match pos with
           | PosNum n => if n <? 0 then a_board g
                         else place (a_board g) (Z.to_nat n) c
           | PosStr _ => a_board g
           end;
         a_turn := Some (negb c) |}
  end.

#[export] Instance alternating : ReversiEngine :=
  {| EngineGame := T; newGame := build; engine_map := a_map;
     engine_board := a_board; engine_turn := a_turn; putStone := put |}.

#[export] Instance sample_config : Config :=
  {| config_host := "https://example.test"; config_i := "token" |}.

(** Sample data: the account of the bot and two other users. *)
Definition ai : User :=
  {| user_id := "ai"; user_name := Some "AI"; user_username := "ai" |}.
Definition alice : User :=
  {| user_id := "alice"; user_name := None; user_username := "alice" |}.
Definition bob : User :=
  {| user_id := "bob"; user_name := Some "Bob"; user_username := "bob" |}.

(** A game between [u1] (black) and [u2] on a board of one row. *)
Definition match_of (u1 u2 : User) (free : bool) : Game :=
  {| game_id := "g1"; user1Id := user_id u1; user2Id := user_id u2;
     user1 := u1; user2 := u2; black := 1; game_map := ["-wb-"];
     isLlotheo := false; canPutEverywhere := free; loopedBoard := false;
     game_turn := None; surrendered := false |}.

Definition init_of (g : Game) (publish : bool) : event :=
  Message (MsgInit {| init_game := g;
                      init_form := [ {| item_id := "publish";
                                        item_value := publish |} ];
                      init_account := ai |}).

Definition ended_of (g : Game) (winner : option string) : event :=
  Message (MsgEnded {| ended_game := g; winnerId := winner |}).

Definition put_of (id : option string) (pos : Z) : event :=
  Message (MsgLog {| log_id := id; log_operation := "put";
                     log_pos := PosNum pos |}).

Definition replies (body : string) : event :=
  FetchSettled (FetchResponse true "200" (inl body)).

(** The state at the end of a run from the new session. *)
Definition final (evs : list event) : State :=
match run initial evs with
| Some st => st
| None => initial
end.

(** The account plays black against alice. *)
Definition as_black : Game := match_of ai alice false.

(** The same game with free placement. *)
Definition free_placement : Game := match_of ai alice true.

(** A game of alice and bob: the account is neither player. *)
Definition of_others : Game := match_of alice bob false.

(** The account has won [as_black]. *)
Definition won : EndedBody :=
{| ended_game := as_black; winnerId := Some "ai" |}.

Definition put_a : LogBody :=
{| log_id := Some "a"; log_operation := "put"; log_pos := PosNum 0 |}.


(** The session after [_init_] and [started] of [as_black]: the account
    holds black, so one request of [think] is in flight. *)
Definition ready_black : State :=
final [init_of as_black true; started_of_game as_black].

Definition board_of_row : T :=
build ["-wb-"] {| opt_isLlotheo := false; opt_canPutEverywhere := false;
                  opt_loopedBoard := false |}.

(** Three log messages with three ids. *)
Definition three_puts : list event :=
[put_of (Some "a") 0; put_of (Some "b") 3; put_of (Some "c") 1].


End Alternating.

(** ** Facts about the event loop *)

(** Open the matches that a handler is made of, in a hypothesis
    [H : step st ev = Some st']. *)
Ltac case_step H :=
  repeat match type of H with
  | context [match ?x with _ => _ end] =>
      let E := fresh "E" in destruct x eqn:E; simpl in H
  | context [if ?x then _ else _] =>
      let E := fresh "E" in destruct x eqn:E; simpl in H
  end.

Ltac handlers H :=
  unfold step, onMessage, onStarted, onEnded, onLog, post, think,
    think_resume, think_failed, onEnded_resume, onInit in H;
  simpl in H; case_step H;
  try discriminate H;
  try (injection H as H; subst).

Section Facts.

Context {reversi : ReversiEngine} {config : Config}.

Lemma step_exited (st : State) (ev : event) :
  exited (process st) = true -> step st ev = Some st.
Proof. intros H. unfold step. now rewrite H. Qed.

Lemma run_exited (st : State) (evs : list event) :
  exited (process st) = true -> run st evs = Some st.
Proof.
  intros H. induction evs as [|ev rest IH]; simpl.
  - reflexivity.
  - now rewrite (step_exited st ev H).
Qed.

Lemma run_app (st : State) (evs1 evs2 : list event) :
  run st (evs1 ++ evs2) = (st' <- run st evs1 ;; run st' evs2).
Proof.
  revert st. induction evs1 as [|ev rest IH]; intros st; simpl.
  - reflexivity.
  - destruct (step st ev); [apply IH | reflexivity].
Qed.

Lemma step_untouched (st st' : State) (ev : event) :
  step st ev = Some st' -> untouched st -> untouched st'.
Proof.
  intros H [Ha Hn]. unfold untouched.
  destruct ev as [[b|b|b|b|t]|r|k f]; handlers H; simpl; auto;
    congruence.
Qed.

Lemma run_untouched (evs : list event) (st st' : State) :
  run st evs = Some st' -> untouched st -> untouched st'.
Proof.
  revert st. induction evs as [|ev rest IH]; simpl; intros st H U.
  - injection H as <-. exact U.
  - destruct (step st ev) as [st1|] eqn:E; [|discriminate].
    eapply IH; eauto using step_untouched.
Qed.

Lemma initial_untouched : untouched initial.
Proof. split; reflexivity. Qed.

(** With no recorded operation the condition of [onLog] holds for every
    log message. *)
Lemma notApplied_nil (s : Session) (log : LogBody) :
  appliedOps s = [] -> notApplied s log = true.
Proof.
  intros H. unfold notApplied. rewrite H. now destruct (log_id log).
Qed.

Lemma step_started_fields (st st' : State) (ev : event) :
  step st ev = Some st' -> started_fields st -> started_fields st'.
Proof.
  intros H I. unfold started_fields in *.
  destruct ev as [[b|b|b|b|t]|r|k f]; handlers H; simpl in *;
    intuition congruence.
Qed.

Lemma run_started_fields (evs : list event) (st st' : State) :
  run st evs = Some st' -> started_fields st -> started_fields st'.
Proof.
  revert st. induction evs as [|ev rest IH]; simpl; intros st H U.
  - injection H as <-. exact U.
  - destruct (step st ev) as [st1|] eqn:E; [|discriminate].
    eapply IH; eauto using step_started_fields.
Qed.

Lemma initial_started_fields : started_fields initial.
Proof. intros H. now elim H. Qed.

(** A session that has its fields and its engine handles every event
    (with a ['publish'] item in each form it is given): no handler
    throws. *)
Lemma step_defined (st : State) (ev : event) :
  established st -> well_formed ev ->
  exists st', step st ev = Some st' /\ established st'.
Proof.
  intros (Ha & Hg & Hp & He) Hw. unfold established.
  destruct (account (session st)) as [a|] eqn:Ea; [|congruence].
  destruct (game (session st)) as [g|] eqn:Eg; [|congruence].
  destruct (allowPost (session st)) as [allow|] eqn:Ep; [|congruence].
  destruct (engine (session st)) as [e|] eqn:Ee; [|congruence].
  assert (Hp' := Ep). unfold allowPost in Hp'.
  unfold step. destruct (exited (process st)) eqn:Ex.
  { exists st. rewrite Ea, Eg, Ep, Ee. auto. }
  destruct ev as [[b|b|b|b|t]|r|k f]; simpl.
  - eexists. split; [reflexivity|]. simpl in *. unfold allowPost. simpl.
    destruct (find _ (init_form b)); [|congruence].
    rewrite Ee. repeat split; discriminate.
  - unfold onStarted. destruct (canPutEverywhere (started_game b)).
    + eexists. split; [reflexivity|]. simpl. unfold allowPost in *. simpl.
      rewrite Ea, Ee. destruct (form (session st)); [|discriminate].
      destruct (find _ l); [|discriminate]. repeat split; discriminate.
    + simpl. rewrite Ea. unfold think. simpl.
      destruct (holdsBlack _ _); eexists; (split; [reflexivity|]); simpl;
        unfold allowPost in *; simpl; rewrite Ea;
        (destruct (form (session st)); [|discriminate]);
        (destruct (find _ l); [|discriminate]); repeat split; discriminate.
  - unfold onEnded. simpl. rewrite Ea. unfold userName, user. simpl.
    rewrite Eg, Ea. simpl. unfold post. simpl. rewrite Ep.
    destruct allow; eexists; (split; [reflexivity|]); simpl;
      rewrite Ea, Eg, Ep, Ee; repeat split; discriminate.
  - unfold onLog. rewrite Ee.
    destruct (notApplied _ _); [|exists st; rewrite Ea, Eg, Ep, Ee; auto].
    destruct (String.eqb _ _); [|exists st; rewrite Ea, Eg, Ep, Ee; auto].
    simpl. unfold think. simpl. rewrite Eg.
    destruct (turn_is _ _); eexists; (split; [reflexivity|]); simpl;
      unfold allowPost in *; simpl; rewrite Ea, Eg;
      (destruct (form (session st)); [|discriminate]);
      (destruct (find _ l); [|discriminate]); repeat split; discriminate.
  - exists st. rewrite Ea, Eg, Ep, Ee. auto.
  - destruct (inflight (process st)).
    + exists st. rewrite Ea, Eg, Ep, Ee. auto.
    + eexists. split; [reflexivity|].
      destruct r as [?|[|] ? [?|?]]; simpl; rewrite ?Ee; simpl;
        unfold allowPost in *; simpl; rewrite ?Ea, ?Eg, ?Ee;
        (destruct (form (session st)); [|discriminate]);
        (destruct (find _ l); [|discriminate]); repeat split; discriminate.
  - destruct (nth_error _ k).
    + eexists. split; [reflexivity|]. simpl. rewrite Ea, Eg, Ep, Ee.
      repeat split; discriminate.
    + exists st. rewrite Ea, Eg, Ep, Ee. auto.
Qed.

Lemma run_defined (evs : list event) (st : State) :
  established st -> Forall well_formed evs ->
  exists st', run st evs = Some st' /\ established st'.
Proof.
  revert st. induction evs as [|ev rest IH]; intros st Hs Hw; simpl.
  - exists st. auto.
  - inversion Hw as [|? ? Hev Hrest]; subst.
    destruct (step_defined st ev Hs Hev) as (st1 & -> & Hs1).
    apply (IH st1 Hs1 Hrest).
Qed.

(** What [parseInt] makes of some replies: the text is trimmed, digits
    that are followed by other text are read, and the bounds are 0 and 63.
    White space outside ASCII is skipped like a blank: a no-break space
    (C2 A0) or a byte order mark (EF BB BF) in front, an ideographic space
    (E3 80 80) at the end; other bytes in front are not. *)
Lemma decodeResponse_examples :
  decodeResponse "0" = inr 0 /\
  decodeResponse "63" = inr 63 /\
  decodeResponse "19
" = inr 19 /\
  decodeResponse " 7 " = inr 7 /\
  decodeResponse "12abc" = inr 12 /\
  decodeResponse EmptyString = inl (invalidResponse EmptyString) /\
  decodeResponse "1e3" = inr 1 /\
  decodeResponse (String "194" (String "160" "7")) = inr 7 /\
  decodeResponse (String "239" (String "187" (String "191" "42"))) = inr 42 /\
  decodeResponse
    ("5" ++ String "227" (String "128" (String "128" EmptyString)))
  = inr 5 /\
  Js.trim ("5" ++ String "227" (String "128" (String "128" EmptyString)))
  = "5" /\
  decodeResponse (String "195" (String "169" "7"))
  = inl (invalidResponse (String "195" (String "169" "7"))).
Proof. repeat apply conj; vm_compute; reflexivity. Qed.


(** After [_init_] and a [started] without free placement the session is
    established, whatever the engine. *)
Lemma started_established (b : InitBody) (g : Game) :
  well_formed (Message (MsgInit b)) ->
  canPutEverywhere g = false ->
  exists st,
    run initial [Message (MsgInit b); started_of_game g] = Some st /\
    established st /\ exited (process st) = false.
Proof.
  intros Hw Hf. simpl in Hw. unfold run, step. simpl. unfold onStarted.
  simpl. rewrite Hf. unfold think. simpl. unfold established, allowPost.
  destruct (holdsBlack g (init_account b)); eexists;
    (split; [reflexivity|]); simpl;
    (destruct (find _ (init_form b)); [|congruence]);
    repeat split; discriminate.
Qed.


End Facts.

(** ** The claims, for every engine *)

Section Claims.

Context {reversi : ReversiEngine} {config : Config}.

(** *** Publishing *)

Lemma step_no_renote (st st' : State) (ev : event) :
  step st ev = Some st' ->
  startedNote (session st) = None ->
  Forall no_renote (posts (process st)) ->
  Forall no_renote (posts (process st')).
Proof.
  intros H Hn F.
  destruct ev as [[b|b|b|b|t]|r|k f]; handlers H; simpl; auto;
    try congruence.
  apply Forall_app. split; [exact F|]. repeat constructor.
Qed.

Lemma run_no_renote (evs : list event) (st st' : State) :
  run st evs = Some st' ->
  untouched st ->
  Forall no_renote (posts (process st)) ->
  Forall no_renote (posts (process st')).
Proof.
  revert st. induction evs as [|ev rest IH]; simpl; intros st H U F.
  - injection H as <-. exact F.
  - destruct (step st ev) as [st1|] eqn:E; [|discriminate].
    apply (IH st1 H).
    + eapply step_untouched; eauto.
    + eapply step_no_renote; eauto. apply U.
Qed.

Lemma step_posts_length (st st' : State) (ev : event) :
  step st ev = Some st' ->
  (List.length (posts (process st'))
   <= List.length (posts (process st)) + (if is_ended ev then 1 else 0))%nat.
Proof.
  intros H.
  destruct ev as [[b|b|b|b|t]|r|k f]; handlers H; simpl;
    try rewrite length_app; simpl; lia.
Qed.

Lemma run_posts_length (evs : list event) (st st' : State) :
  run st evs = Some st' ->
  (List.length (posts (process st'))
   <= List.length (posts (process st))
      + List.length (filter is_ended evs))%nat.
Proof.
  revert st. induction evs as [|ev rest IH]; simpl; intros st H.
  - injection H as <-. lia.
  - destruct (step st ev) as [st1|] eqn:E; [|discriminate].
    apply IH in H. apply step_posts_length in E.
    destruct (is_ended ev); simpl; lia.
Qed.

(** C10.  In every run from the new session [startedNote] keeps its
    initial [null]: no handler assigns it, and no request is published
    before an [ended] message (there are never more requests than [ended]
    messages, so none announces the start).  Hence no body that [post]
    sends carries a [renoteId]. *)
Theorem C10_startedNote_stays_null (evs : list event) (st : State) :
  run initial evs = Some st ->
  startedNote (session st) = None /\
  Forall (fun b => body_renoteId b = None) (posts (process st)) /\
  (List.length (posts (process st))
   <= List.length (filter is_ended evs))%nat.
Proof.
  intros H. split; [|split].
  - apply (run_untouched evs initial st H initial_untouched).
  - apply (run_no_renote evs initial st H initial_untouched).
    constructor.
  - apply (run_posts_length evs initial st H).
Qed.

(** *** Free placement *)

(** C8.  A [started] message with [canPutEverywhere] ends the session at
    once: the [ended] message goes to the parent and the process exits.
    The handler builds no engine, computes no [maxTurn] and no
    [botColor], and calls no [think] (these fields and the requests are as
    they were, so in a session that had not started they stay undefined),
    and nothing that arrives later is handled. *)
Theorem C8_free_placement_ends_session
    (st : State) (msg : StartedBody) (evs : list event) :
  exited (process st) = false ->
  canPutEverywhere (started_game msg) = true ->
  exists st',
    step st (Message (MsgStarted msg)) = Some st' /\
    sent (process st') = (sent (process st) ++ [OutEnded])%list /\
    exited (process st') = true /\
    engine (session st') = engine (session st) /\
    maxTurn (session st') = maxTurn (session st) /\
    botColor (session st') = botColor (session st) /\
    currentTurn (session st') = currentTurn (session st) /\
    fetches (process st') = fetches (process st) /\
    inflight (process st') = inflight (process st) /\
    run st' evs = Some st'.
Proof.
  intros He Hf. eexists. split.
  - unfold step. rewrite He. simpl. unfold onStarted. rewrite Hf.
    reflexivity.
  - simpl. repeat split. now apply run_exited.
Qed.

(** *** Operations that arrive twice *)

(** C1 (what the code does).  [appliedOps] is read by [onLog] but never
    written: it is empty in every state of a run, so a log message whose
    id has been applied is applied again.  Delivering the same ['put']
    message with an id twice puts the stone twice and raises
    [currentTurn] by two. *)
Theorem C1_same_id_applied_twice
    (evs : list event) (st : State) (e : EngineGame) (log : LogBody)
    (id : string) :
  run initial evs = Some st ->
  exited (process st) = false ->
  engine (session st) = Some e ->
  log_id log = Some id ->
  log_operation log = "put" ->
  exists st1 st2,
    step st (Message (MsgLog log)) = Some st1 /\
    step st1 (Message (MsgLog log)) = Some st2 /\
    currentTurn (session st1) = currentTurn (session st) + 1 /\
    Js.includes (appliedOps (session st1)) id = false /\
    currentTurn (session st2) = currentTurn (session st) + 2 /\
    engine (session st2)
    = Some (putStone (putStone e (log_pos log)) (log_pos log)).
Proof.
  intros Hrun He Heng Hid Hop.
  pose proof (run_untouched _ _ _ Hrun initial_untouched) as [Ha _].
  pose proof (run_started_fields _ _ _ Hrun initial_started_fields) as Hs.
  destruct Hs as (Hg & _ & _); [congruence|].
  destruct (game (session st)) as [g|] eqn:Eg; [|congruence].
  assert (S1 : exists st1, step st (Message (MsgLog log)) = Some st1 /\
             exited (process st1) = false /\
             appliedOps (session st1) = [] /\
             game (session st1) = Some g /\
             engine (session st1) = Some (putStone e (log_pos log)) /\
             currentTurn (session st1) = currentTurn (session st) + 1).
  { unfold step. rewrite He. simpl. unfold onLog.
    rewrite (notApplied_nil _ _ Ha), Hop, Heng. simpl.
    unfold think. simpl. rewrite Eg.
    destruct (turn_is _ _); eexists; split; try reflexivity; simpl; auto. }
  destruct S1 as (st1 & H1 & He1 & Ha1 & Hg1 & Heng1 & Hc1).
  assert (S2 : exists st2, step st1 (Message (MsgLog log)) = Some st2 /\
             engine (session st2)
             = Some (putStone (putStone e (log_pos log)) (log_pos log)) /\
             currentTurn (session st2) = currentTurn (session st1) + 1).
  { unfold step. rewrite He1. simpl. unfold onLog.
    rewrite (notApplied_nil _ _ Ha1), Hop, Heng1. simpl.
    unfold think. simpl. rewrite Hg1.
    destruct (turn_is _ _); eexists; split; try reflexivity; simpl; auto. }
  destruct S2 as (st2 & H2 & Heng2 & Hc2).
  exists st1, st2. repeat split; auto.
  - now rewrite Ha1.
  - lia.
Qed.

(** *** When think is called *)

Lemma step_thinkCalls (st st' : State) (ev : event) :
  step st ev = Some st' ->
  thinkCalls st' = (thinkCalls st + if triggers st ev then 1 else 0)%nat /\
  inflight (process st')
  = (inflight (process st) + (if triggers st ev then 1 else 0)
     - (match ev with
        | FetchSettled _ => if exited (process st) then 0 else 1
        | _ => 0
        end))%nat.
Proof.
  intros H. unfold thinkCalls, triggers.
  destruct ev as [[b|b|b|b|t]|r|k f]; handlers H; simpl;
    try rewrite length_app; simpl; split; try lia; congruence.
Qed.

Lemma holdsBlack_iff (g : Game) (a : User) :
  holdsBlack g a = true <->
  (user1Id g = user_id a /\ black g = 1) \/
  (user2Id g = user_id a /\ black g = 2).
Proof.
  unfold holdsBlack.
  rewrite orb_true_iff, !andb_true_iff, !String.eqb_eq, !Z.eqb_eq.
  reflexivity.
Qed.

Lemma holdsBlack_neither (g : Game) (a : User) :
  user1Id g <> user_id a -> user2Id g <> user_id a ->
  holdsBlack g a = false.
Proof.
  intros H1 H2. unfold holdsBlack.
  apply String.eqb_neq in H1, H2. now rewrite H1, H2.
Qed.

(** C2 (as the code has it).  An event makes the session call [think]
    exactly when it [triggers]: a [started] message without free
    placement whose account holds black, or a log message that is
    applied and leaves [engine.turn] equal to [botColor].  [botColor] is
    the boolean [holdsBlack]: it is [false], the value of white, also for
    an account that is neither player, so such a session calls [think]
    after every applied log message that leaves the turn with white. *)
Theorem C2_think_called_on_triggers
    (st st' : State) (ev : event) :
  step st ev = Some st' ->
  thinkCalls st' = (thinkCalls st + if triggers st ev then 1 else 0)%nat /\
  (forall msg a,
      ev = Message (MsgStarted msg) ->
      exited (process st) = false ->
      canPutEverywhere (started_game msg) = false ->
      account (session st) = Some a ->
      botColor (session st') = Some (holdsBlack (started_game msg) a) /\
      (triggers st ev = true <->
       (user1Id (started_game msg) = user_id a /\
        black (started_game msg) = 1) \/
       (user2Id (started_game msg) = user_id a /\
        black (started_game msg) = 2)) /\
      (user1Id (started_game msg) <> user_id a ->
       user2Id (started_game msg) <> user_id a ->
       botColor (session st') = Some WHITE)) /\
  (forall log e,
      ev = Message (MsgLog log) ->
      exited (process st) = false ->
      engine (session st) = Some e ->
      notApplied (session st) log = true ->
      log_operation log = "put" ->
      (triggers st ev = true <->
       exists c, engine_turn (putStone e (log_pos log)) = Some c /\
                 botColor (session st) = Some c)).
Proof.
  intros H. split; [apply (step_thinkCalls st st' ev H)|]. split.
  - intros msg a -> He Hf Ha.
    assert (Hb : botColor (session st')
                 = Some (holdsBlack (started_game msg) a)).
    { unfold step in H. rewrite He in H. simpl in H.
      unfold onStarted in H. rewrite Hf in H. simpl in H.
      rewrite Ha in H. unfold think in H. simpl in H.
      destruct (holdsBlack _ _); injection H as <-; reflexivity. }
    split; [exact Hb|]. split.
    + unfold triggers. rewrite He, Hf, Ha. simpl. apply holdsBlack_iff.
    + intros H1 H2. rewrite Hb. now rewrite holdsBlack_neither.
  - intros log e -> He Heng Hna Hop.
    unfold triggers. rewrite He, Hna, Hop, Heng. simpl.
    unfold turn_is.
    destruct (engine_turn _) as [c|], (botColor _) as [b|]; split;
      try discriminate;
      try (intros (c' & H1 & H2); discriminate).
    + intros Hc. apply Bool.eqb_prop in Hc. subst. now exists b.
    + intros (c' & H1 & H2). injection H1 as <-. injection H2 as <-.
      apply Bool.eqb_reflx.
Qed.


(** *** The reply of the inference service *)

Lemma decodeResponse_inr (stdout : string) (n : Z) :
  decodeResponse stdout = inr n <->
  Js.parseInt (Js.trim stdout) = Some n /\ 0 <= n <= 63.
Proof.
  unfold decodeResponse.
  destruct (Js.parseInt (Js.trim stdout)) as [r|].
  - destruct (r <? 0) eqn:L; [|destruct (r >? 63) eqn:G]; simpl.
    + apply Z.ltb_lt in L. split; [discriminate|].
      intros [E B]. injection E as ->. lia.
    + rewrite Z.gtb_ltb in G. apply Z.ltb_lt in G.
      split; [discriminate|]. intros [E B]. injection E as ->. lia.
    + apply Z.ltb_ge in L. rewrite Z.gtb_ltb in G. apply Z.ltb_ge in G.
      split.
      * intros E. injection E as ->. split; [reflexivity|lia].
      * intros [E _]. now injection E as ->.
  - split; [discriminate|]. intros [E _]. discriminate.
Qed.

Lemma decodeResponse_inl (stdout : string) (e : Js.Error) :
  decodeResponse stdout = inl e -> e = invalidResponse stdout.
Proof.
  unfold decodeResponse.
  destruct (Js.parseInt (Js.trim stdout)) as [r|];
    [destruct ((r <? 0) || (r >? 63))|]; congruence.
Qed.

(** C3 (as the code has it).  [executeCurlCommand], given the text of the
    reply and no error output, returns the number that [parseInt] reads
    from the trimmed text when that number lies in 0..63, and otherwise
    throws: a text that is no number and a number out of range throw the
    one error "Invalid response from server" with the text, which is
    also written to the console.  The code has no second kind of error. *)
Theorem C3_decoding_has_one_error (stdout : string) :
  (forall n,
      snd (executeCurlCommand (ExecDone stdout EmptyString)) = inr n <->
      Js.parseInt (Js.trim stdout) = Some n /\ 0 <= n <= 63) /\
  ((forall n, Js.parseInt (Js.trim stdout) = Some n -> n < 0 \/ 63 < n) ->
   executeCurlCommand (ExecDone stdout EmptyString)
   = ([Js.ConsoleError "Error in executeCurlCommand:"
         ("Invalid response from server: " ++ stdout)],
      inl (invalidResponse stdout))).
Proof.
  unfold executeCurlCommand. simpl. split.
  - intros n. rewrite <- decodeResponse_inr.
    destruct (decodeResponse stdout); simpl; reflexivity.
  - intros H. destruct (decodeResponse stdout) as [e|n] eqn:E.
    + apply decodeResponse_inl in E. subst. reflexivity.
    + apply decodeResponse_inr in E. destruct E as [E B].
      apply H in E. lia.
Qed.

(** *** A reply that arrives while think waits *)

Lemma transport_failure_recovered
    (st : State) (n : nat) (r : FetchResult) (error : string) :
  exited (process st) = false ->
  inflight (process st) = S n ->
  (r = FetchRejected error \/
   (exists status text, r = FetchResponse false status text /\
      error = "HTTP error! status: " ++ status) \/
   (exists status, r = FetchResponse true status (inr error))) ->
  exists st',
    step st (FetchSettled r) = Some st' /\
    session st' = session st /\
    exited (process st') = false /\
    console (process st')
    = (console (process st)
       ++ [Js.ConsoleError "Error sending request:" error])%list.
Proof.
  intros He Hi Hr. unfold step. rewrite He, Hi.
  destruct Hr as [->|[(status & text & -> & ->)|(status & ->)]];
    eexists; (split; [reflexivity|]); simpl; auto.
Qed.

(** C6 (what the code does).  [think] takes the text of every reply with
    a success status as the move: the text is not parsed and not checked
    against the board, nothing is written as an error, the text is handed
    to [putStone] and [currentTurn] is raised, whatever the text is. *)
Theorem C6_reply_applied_unchecked
    (st : State) (e : EngineGame) (n : nat) (status nextMove : string) :
  exited (process st) = false ->
  engine (session st) = Some e ->
  inflight (process st) = S n ->
  exists st',
    step st (FetchSettled (FetchResponse true status (inl nextMove)))
    = Some st' /\
    engine (session st') = Some (putStone e (PosStr nextMove)) /\
    currentTurn (session st') = currentTurn (session st) + 1 /\
    console (process st')
    = (console (process st)
       ++ [Js.ConsoleLog "Curl response:" nextMove])%list.
Proof.
  intros He Heng Hi. unfold step. rewrite He, Hi. simpl.
  unfold think_resume. simpl. rewrite Heng.
  eexists. split; [reflexivity|]. simpl. auto.
Qed.

(** *** The text of the outcome *)

(** The chain of conditions in [onEnded], for a flag that had a value. *)
Lemma outcome_by_flag (settai : bool) (msg : EndedBody) (self : User) :
  exhibition (outcome settai msg self) = settai /\
  (surrendered (ended_game msg) = true ->
   outcome false msg self = youSurrendered /\
   outcome true msg self = settaiButYouSurrendered) /\
  (surrendered (ended_game msg) = false ->
   (forall w, winnerId msg = Some w -> w <> EmptyString ->
      (w = user_id self ->
       outcome false msg self = iWon /\
       outcome true msg self = iWonButSettai) /\
      (w <> user_id self ->
       outcome false msg self = iLose /\
       outcome true msg self = iLoseButSettai)) /\
   (winnerId msg = None ->
    outcome false msg self = drawn /\
    outcome true msg self = drawnSettai)).
Proof.
  unfold outcome. split; [|split].
  - destruct (surrendered _), (winnerId msg) as [w|], settai; simpl;
      try reflexivity;
      destruct (Js.truthy_string w), (String.eqb w (user_id self));
      reflexivity.
  - intros ->. auto.
  - intros ->. split.
    + intros w -> Hw. unfold Js.truthy_string.
      apply String.eqb_neq in Hw. rewrite Hw. simpl. split.
      * intros <-. rewrite String.eqb_refl. auto.
      * intros Hn. apply String.eqb_neq in Hn. rewrite Hn. auto.
    + intros ->. auto.
Qed.

Lemma step_plain_text (st st' : State) (ev : event) :
  step st ev = Some st' ->
  Forall plain_text (posts (process st)) ->
  Forall plain_text (posts (process st')).
Proof.
  intros H F.
  destruct ev as [[b|b|b|b|t]|r|k f]; handlers H; simpl; auto.
  all: apply Forall_app; split; [exact F|]; constructor; [|constructor].
  all: unfold plain_text; simpl; apply (outcome_by_flag false).
Qed.

(** C7 (what the code does).  [onEnded] chooses by [this.isSettai], a
    property the class never defines, so the flag is always false: in
    every run every published text uses one of the four plain templates,
    never an exhibition one.  For a game that was not surrendered and
    that the account won the text is [iWon]. *)
Theorem C7_exhibition_text_never_chosen
    (evs : list event) (st : State) :
  run initial evs = Some st ->
  Forall (fun b => exhibition (text_serif (body_text b)) = false)
         (posts (process st)) /\
  (forall s msg self,
      surrendered (ended_game msg) = false ->
      winnerId msg = Some (user_id self) ->
      user_id self <> EmptyString ->
      outcome (isSettai s) msg self = iWon).
Proof.
  intros H. split.
  - assert (G : forall st0, run st0 evs = Some st ->
                Forall plain_text (posts (process st0)) ->
                Forall plain_text (posts (process st))).
    { clear H. induction evs as [|ev rest IH]; simpl; intros st0 H F.
      - injection H as <-. exact F.
      - destruct (step st0 ev) as [st1|] eqn:E; [|discriminate].
        apply (IH st1 H). eapply step_plain_text; eauto. }
    apply (G initial H). constructor.
  - intros s msg self Hs Hw Hne.
    destruct (outcome_by_flag false msg self) as (_ & _ & Hc).
    destruct (Hc Hs) as [Hwin _].
    destruct (Hwin _ Hw Hne) as [Hself _].
    now destruct (Hself eq_refl).
Qed.


(** *** The end of the game *)

(** C4 (as the code has it).  [onEnded] has no guard: every [ended]
    message that is handled before the process has exited sends the
    [ended] message to the parent and, when publishing is allowed, sends a
    request to the publisher, also when an earlier [onEnded] still waits
    for its request.  The process exits when one of the waiting calls
    resumes, and only from then on is an [ended] message (or any other
    event) without effect. *)
Theorem C4_ended_repeats_until_exit
    (st : State) (msg : EndedBody) (self : User) (name : string)
    (allow : bool) :
  exited (process st) = false ->
  account (session st) = Some self ->
  userName (session st) = Some name ->
  allowPost (session st) = Some allow ->
  exists st',
    step st (Message (MsgEnded msg)) = Some st' /\
    sent (process st') = (sent (process st) ++ [OutEnded])%list /\
    List.length (posts (process st'))
    = (List.length (posts (process st)) + if allow then 1 else 0)%nat /\
    ending (process st') = (ending (process st) ++ [allow])%list /\
    exited (process st') = false /\
    session st' = session st /\
    (forall k failure outstanding,
        nth_error (ending (process st')) k = Some outstanding ->
        exists st'',
          step st' (PostSettled k failure) = Some st'' /\
          exited (process st'') = true /\
          sent (process st'') = sent (process st') /\
          posts (process st'') = posts (process st') /\
          forall evs, run st'' evs = Some st'').
Proof.
  intros He Ha Hn Hp.
  assert (S : exists st',
             step st (Message (MsgEnded msg)) = Some st' /\
             sent (process st') = (sent (process st) ++ [OutEnded])%list /\
             List.length (posts (process st'))
             = (List.length (posts (process st))
                + if allow then 1 else 0)%nat /\
             ending (process st') = (ending (process st) ++ [allow])%list /\
             exited (process st') = false /\
             session st' = session st).
  { unfold step. rewrite He. simpl. unfold onEnded. simpl.
    rewrite Ha, Hn. unfold post. simpl. rewrite Hp.
    destruct allow; eexists; (split; [reflexivity|]); simpl;
      rewrite ?length_app; simpl; repeat split; auto; lia. }
  destruct S as (st' & H1 & H2 & H3 & H4 & H5 & H6).
  exists st'. repeat (split; [assumption|]).
  intros k failure outstanding Hk.
  exists (onEnded_resume outstanding failure st'). split.
  - unfold step. now rewrite H5, Hk.
  - unfold onEnded_resume.
    destruct outstanding, failure; simpl; repeat split; auto;
      intros evs; now apply run_exited.
Qed.

(** *** The turn counter *)

Lemma step_currentTurn (st st' : State) (ev : event) :
  step st ev = Some st' ->
  currentTurn (session st')
  = currentTurn (session st) + (if applies st ev then 1 else 0).
Proof.
  intros H. unfold applies.
  destruct ev as [[b|b|b|b|t]|r|k f]; handlers H; simpl; try lia.
  destruct r as [?|[|] ? [?|?]]; simpl; lia.
Qed.

Lemma run_currentTurn (evs : list event) (st st' : State) :
  run st evs = Some st' ->
  currentTurn (session st')
  = currentTurn (session st) + Z.of_nat (countEvents applies st evs).
Proof.
  revert st. induction evs as [|ev rest IH]; simpl; intros st H.
  - injection H as <-. lia.
  - destruct (step st ev) as [st1|] eqn:E; [|discriminate].
    apply IH in H. apply step_currentTurn in E.
    destruct (applies st ev); lia.
Qed.

Lemma step_maxTurn (st st' : State) (ev : event) :
  step st ev = Some st' ->
  maxTurn (session st') = maxTurn (session st) \/
  exists g, ev = started_of_game g /\ canPutEverywhere g = false /\
            maxTurn (session st') = Some (maxTurnOf g).
Proof.
  intros H.
  destruct ev as [[b|b|b|b|t]|r|k f]; handlers H; simpl; auto;
    right; destruct b as [g]; exists g; simpl in *;
    unfold maxTurnOf; rewrite E0; auto.
Qed.

Lemma run_maxTurn (evs : list event) (st st' : State) :
  run st evs = Some st' ->
  maxTurn (session st') = maxTurn (session st) \/
  exists g, In (started_of_game g) evs /\ canPutEverywhere g = false /\
            maxTurn (session st') = Some (maxTurnOf g).
Proof.
  revert st. induction evs as [|ev rest IH]; simpl; intros st H.
  - injection H as <-. now left.
  - destruct (step st ev) as [st1|] eqn:E; [|discriminate].
    destruct (IH st1 H) as [Hm|(g & Hin & Hf & Hm)].
    + destruct (step_maxTurn st st1 ev E) as [Hs|(g & -> & Hf & Hs)].
      * left. congruence.
      * right. exists g. rewrite Hm. auto.
    + right. exists g. auto.
Qed.

Lemma puts_raise_currentTurn (pos : Pos) (n : nat) (st : State) :
  exited (process st) = false ->
  engine (session st) <> None ->
  game (session st) <> None ->
  exists st',
    run st (repeat (unidentified_put pos) n) = Some st' /\
    currentTurn (session st') = currentTurn (session st) + Z.of_nat n /\
    maxTurn (session st') = maxTurn (session st).
Proof.
  revert st. induction n as [|n IH]; intros st He Heng Hg.
  - exists st. simpl. repeat split. lia.
  - destruct (engine (session st)) as [e|] eqn:Ee; [|congruence].
    destruct (game (session st)) as [g|] eqn:Eg; [|congruence].
    assert (S : exists st1,
               step st (unidentified_put pos) = Some st1 /\
               exited (process st1) = false /\
               engine (session st1) <> None /\
               game (session st1) <> None /\
               currentTurn (session st1) = currentTurn (session st) + 1 /\
               maxTurn (session st1) = maxTurn (session st)).
    { unfold step. rewrite He. simpl. unfold onLog. simpl. rewrite Ee. simpl.
      unfold think. simpl. rewrite Eg.
      destruct (turn_is _ _); eexists; (split; [reflexivity|]); simpl;
        rewrite ?Eg; repeat split; auto; discriminate. }
    destruct S as (st1 & H1 & He1 & Heng1 & Hg1 & Hc1 & Hm1).
    destruct (IH st1 He1 Heng1 Hg1) as (st' & Hr & Hc & Hm).
    exists st'. change (repeat (unidentified_put pos) (S n))
      with (unidentified_put pos :: repeat (unidentified_put pos) n).
    simpl run. rewrite H1. repeat split; [exact Hr| |congruence].
    rewrite Hc, Hc1. lia.
Qed.

Lemma step_maxTurn_set (st st' : State) (ev : event) :
  step st ev = Some st' ->
  maxTurn (session st')
  = match startsGame st ev with
    | Some g => Some (maxTurnOf g)
    | None => maxTurn (session st)
    end.
Proof.
  intros H. unfold startsGame.
  destruct ev as [[b|b|b|b|t]|r|k f]; handlers H; simpl; auto;
    unfold maxTurnOf; rewrite E0; reflexivity.
Qed.

Lemma run_lastStarted (evs : list event) (st st' : State)
    (g0 : option Game) :
  run st evs = Some st' ->
  maxTurn (session st) = option_map maxTurnOf g0 ->
  maxTurn (session st') = option_map maxTurnOf (lastStarted st evs g0).
Proof.
  revert st g0. induction evs as [|ev rest IH]; simpl; intros st g0 H I.
  - injection H as <-. exact I.
  - destruct (step st ev) as [st1|] eqn:E; [|discriminate].
    apply (IH st1 _ H). rewrite (step_maxTurn_set st st1 ev E).
    destruct (startsGame st ev); [reflexivity|exact I].
Qed.

(** C5 (as the code has it).  In every run from the new session
    [currentTurn] is the number of operations applied so far: the log
    messages that passed the condition of [onLog] with a ['put'], and the
    replies that [think] applied.  [maxTurn] is undefined until a
    [started] message without free placement is handled; from then on it
    is the value that the [started] message handled last gave it: the
    number of ['empty'] cells of the map minus the number of stones on the
    new board.  The two are never compared: from a started session every
    further logged stone raises [currentTurn] by one and leaves [maxTurn]
    as it is, however many stones are logged. *)
Theorem C5_currentTurn_counts_applied (evs : list event) (st : State) :
  run initial evs = Some st ->
  currentTurn (session st) = Z.of_nat (countEvents applies initial evs) /\
  maxTurn (session st)
  = option_map maxTurnOf (lastStarted initial evs None) /\
  (forall pos n,
      exited (process st) = false ->
      engine (session st) <> None ->
      exists st',
        run st (repeat (unidentified_put pos) n) = Some st' /\
        currentTurn (session st') = currentTurn (session st) + Z.of_nat n /\
        maxTurn (session st') = maxTurn (session st)).
Proof.
  intros H. split; [|split].
  - now rewrite (run_currentTurn evs initial st H).
  - apply (run_lastStarted evs initial st None H). reflexivity.
  - intros pos n He Heng.
    apply puts_raise_currentTurn; auto.
    now apply (run_started_fields evs initial st H initial_started_fields).
Qed.

(** *** Requests in flight *)

(** C9 (as the code has it).  [think] has no guard: every event that
    triggers it sends a request of its own, whether or not earlier
    requests are still outstanding.  While no request settles, the number
    of requests in flight grows by one with each trigger. *)
Theorem C9_each_trigger_sends_a_request
    (evs : list event) (st st' : State) :
  run st evs = Some st' ->
  forallb is_message evs = true ->
  inflight (process st')
  = (inflight (process st) + countEvents triggers st evs)%nat /\
  thinkCalls st' = (thinkCalls st + countEvents triggers st evs)%nat.
Proof.
  revert st. induction evs as [|ev rest IH]; simpl; intros st H M.
  - injection H as <-. lia.
  - destruct (step st ev) as [st1|] eqn:E; [|discriminate].
    apply andb_true_iff in M. destruct M as [Mev Mrest].
    destruct (IH st1 H Mrest) as [I1 I2].
    destruct (step_thinkCalls st st1 ev E) as [T1 T2].
    destruct ev; try discriminate.
    destruct (triggers st (Message m)); lia.
Qed.


End Claims.

(** ** Runs on the small engine *)

Module Runs.

Import Alternating.

(** C10 at a run that publishes: the account wins a started game. *)
Lemma C10_witness :
  run initial [init_of as_black true; started_of_game as_black;
               Message (MsgEnded won)]
  = Some (final [init_of as_black true; started_of_game as_black;
                 Message (MsgEnded won)]) /\
  (startedNote (session (final [init_of as_black true;
                                started_of_game as_black;
                                Message (MsgEnded won)])) = None /\
   Forall (fun b => body_renoteId b = None)
     (posts (process (final [init_of as_black true;
                             started_of_game as_black;
                             Message (MsgEnded won)]))) /\
   (List.length (posts (process (final [init_of as_black true;
                                        started_of_game as_black;
                                        Message (MsgEnded won)])))
    <= List.length (filter is_ended
                      [init_of as_black true; started_of_game as_black;
                       Message (MsgEnded won)]))%nat).
Proof.
  split.
  - vm_compute; reflexivity.
  - apply (C10_startedNote_stays_null
             [init_of as_black true; started_of_game as_black;
              Message (MsgEnded won)]).
    vm_compute; reflexivity.
Defined.

(** C8 at a session that has its [_init_] and gets a game with free
    placement, followed by a log message. *)
Lemma C8_witness :
  exists st',
    step (final [init_of free_placement true])
         (Message (MsgStarted {| started_game := free_placement |}))
    = Some st' /\
    sent (process st') = [OutEnded] /\
    exited (process st') = true /\
    engine (session st') = None /\
    maxTurn (session st') = None /\
    botColor (session st') = None /\
    currentTurn (session st') = 0 /\
    fetches (process st') = [] /\
    inflight (process st') = 0%nat /\
    run st' [Message (MsgLog put_a)] = Some st'.
Proof.
  apply (C8_free_placement_ends_session
           (final [init_of free_placement true])
           {| started_game := free_placement |}
           [Message (MsgLog put_a)]).
  - vm_compute; reflexivity.
  - vm_compute; reflexivity.
Defined.

(** C1 at a started game: the message with id ["a"] is delivered twice. *)
Lemma C1_witness :
  exists st1 st2,
    step (final [init_of as_black true; started_of_game as_black])
         (Message (MsgLog put_a)) = Some st1 /\
    step st1 (Message (MsgLog put_a)) = Some st2 /\
    currentTurn (session st1) = 0 + 1 /\
    Js.includes (appliedOps (session st1)) "a" = false /\
    currentTurn (session st2) = 0 + 2 /\
    engine (session st2)
    = Some (putStone (putStone (build ["-wb-"]
                                  {| opt_isLlotheo := false;
                                     opt_canPutEverywhere := false;
                                     opt_loopedBoard := false |})
                               (PosNum 0)) (PosNum 0)).
Proof.
  apply (C1_same_id_applied_twice
           [init_of as_black true; started_of_game as_black]
           (final [init_of as_black true; started_of_game as_black])
           (build ["-wb-"] {| opt_isLlotheo := false;
                              opt_canPutEverywhere := false;
                              opt_loopedBoard := false |})
           put_a "a").
  - vm_compute; reflexivity.
  - vm_compute; reflexivity.
  - vm_compute; reflexivity.
  - vm_compute; reflexivity.
  - vm_compute; reflexivity.
Defined.

(** C2 at the [started] message of a game in which the account holds
    black: the event triggers and [think] is called once. *)
Lemma C2_witness :
  step (final [init_of as_black true]) (started_of_game as_black)
  = Some ready_black /\
  triggers (final [init_of as_black true]) (started_of_game as_black) = true /\
  thinkCalls ready_black = 1%nat.
Proof.
  split; [vm_compute; reflexivity|]. split; [vm_compute; reflexivity|].
  exact (proj1 (C2_think_called_on_triggers
                  (final [init_of as_black true]) ready_black
                  (started_of_game as_black) eq_refl)).
Defined.

(** C2 fails as stated.  The account [ai] is neither player of
    [of_others], yet after the first logged stone the turn is white's,
    which equals its [botColor] [false], and [think] is called.  And the
    account that holds black in [free_placement] gets no [think] on
    [started]. *)
Lemma C2_counterexample :
  String.eqb (user1Id of_others) (user_id ai) = false /\
  String.eqb (user2Id of_others) (user_id ai) = false /\
  botColor (session (final [init_of of_others true;
                            started_of_game of_others])) = Some false /\
  thinkCalls (final [init_of of_others true; started_of_game of_others])
  = 0%nat /\
  option_map thinkCalls
    (run initial [init_of of_others true; started_of_game of_others;
                  put_of (Some "a") 0]) = Some 1%nat /\
  holdsBlack free_placement ai = true /\
  option_map thinkCalls
    (run initial [init_of free_placement true;
                  started_of_game free_placement]) = Some 0%nat.
Proof. repeat apply conj; vm_compute; reflexivity. Qed.

(** C3 fails as stated.  The three rejected texts take the same [throw]:
    the error differs only in the text it repeats.  And [think] does not
    decode at all: the reply ["abc"] is handed to [putStone] and counted as
    a turn, with no error written. *)
Lemma C3_counterexample :
  snd (executeCurlCommand (ExecDone "abc" EmptyString))
  = inl (invalidResponse "abc") /\
  snd (executeCurlCommand (ExecDone "64" EmptyString))
  = inl (invalidResponse "64") /\
  snd (executeCurlCommand (ExecDone "-1" EmptyString))
  = inl (invalidResponse "-1") /\
  run ready_black [replies "abc"]
  = Some (final [init_of as_black true; started_of_game as_black;
                 replies "abc"]) /\
  engine (session (final [init_of as_black true; started_of_game as_black;
                          replies "abc"]))
  = Some (putStone board_of_row (PosStr "abc")) /\
  currentTurn (session (final [init_of as_black true;
                               started_of_game as_black; replies "abc"]))
  = 1 /\
  console (process (final [init_of as_black true; started_of_game as_black;
                           replies "abc"]))
  = [Js.ConsoleLog "Curl response:" "abc"].
Proof. repeat apply conj; vm_compute; reflexivity. Qed.

(** C4 at a started session that may publish. *)
Lemma C4_witness :
  exists st',
    step ready_black (Message (MsgEnded won)) = Some st' /\
    sent (process st') = (sent (process ready_black) ++ [OutEnded])%list /\
    List.length (posts (process st'))
    = (List.length (posts (process ready_black)) + 1)%nat /\
    ending (process st') = (ending (process ready_black) ++ [true])%list /\
    exited (process st') = false /\
    session st' = session ready_black /\
    (forall k failure outstanding,
        nth_error (ending (process st')) k = Some outstanding ->
        exists st'',
          step st' (PostSettled k failure) = Some st'' /\
          exited (process st'') = true /\
          sent (process st'') = sent (process st') /\
          posts (process st'') = posts (process st') /\
          forall evs, run st'' evs = Some st'').
Proof.
  apply (C4_ended_repeats_until_exit ready_black won ai
           "?[alice](https://example.test/@alice)さん" true).
  - vm_compute; reflexivity.
  - vm_compute; reflexivity.
  - vm_compute; reflexivity.
  - vm_compute; reflexivity.
Defined.

(** C4 fails as stated.  A second [ended] message that arrives while the
    request of the first is outstanding sends the [ended] message to the
    parent again and publishes again. *)
Lemma C4_counterexample :
  exited (process (final [init_of as_black true; started_of_game as_black;
                          Message (MsgEnded won)])) = false /\
  run initial [init_of as_black true; started_of_game as_black;
               Message (MsgEnded won); Message (MsgEnded won)]
  = Some (final [init_of as_black true; started_of_game as_black;
                 Message (MsgEnded won); Message (MsgEnded won)]) /\
  sent (process (final [init_of as_black true; started_of_game as_black;
                        Message (MsgEnded won); Message (MsgEnded won)]))
  = [OutEnded; OutEnded] /\
  List.length
    (posts (process (final [init_of as_black true; started_of_game as_black;
                            Message (MsgEnded won); Message (MsgEnded won)])))
  = 2%nat.
Proof. repeat apply conj; vm_compute; reflexivity. Qed.

(** C5 at a run with three logged stones and one reply. *)
Lemma C5_witness :
  run initial (init_of as_black true :: started_of_game as_black
               :: three_puts ++ [replies "2"])
  = Some (final (init_of as_black true :: started_of_game as_black
                 :: three_puts ++ [replies "2"])) /\
  countEvents applies initial
    (init_of as_black true :: started_of_game as_black
     :: three_puts ++ [replies "2"]) = 4%nat /\
  lastStarted initial
    (init_of as_black true :: started_of_game as_black
     :: three_puts ++ [replies "2"]) None = Some as_black /\
  maxTurnOf as_black = 2 /\
  currentTurn (session (final (init_of as_black true
                               :: started_of_game as_black
                               :: three_puts ++ [replies "2"])))
  = Z.of_nat (countEvents applies initial
                (init_of as_black true :: started_of_game as_black
                 :: three_puts ++ [replies "2"])) /\
  maxTurn (session (final (init_of as_black true
                           :: started_of_game as_black
                           :: three_puts ++ [replies "2"])))
  = option_map maxTurnOf
      (lastStarted initial
         (init_of as_black true :: started_of_game as_black
          :: three_puts ++ [replies "2"]) None).
Proof.
  split; [vm_compute; reflexivity|].
  split; [vm_compute; reflexivity|].
  split; [vm_compute; reflexivity|].
  split; [vm_compute; reflexivity|].
  refine ((fun H => conj (proj1 H) (proj1 (proj2 H)))
            (C5_currentTurn_counts_applied
               (init_of as_black true :: started_of_game as_black
                :: three_puts ++ [replies "2"])
               (final (init_of as_black true :: started_of_game as_black
                       :: three_puts ++ [replies "2"]))
               _)).
  vm_compute; reflexivity.
Defined.

(** C5 fails as stated.  The board of one row has four cells and two
    stones, so [maxTurn] is 2; three log messages with three different ids
    bring [currentTurn] to 3. *)
Lemma C5_counterexample :
  run initial (init_of as_black true :: started_of_game as_black
               :: three_puts)
  = Some (final (init_of as_black true :: started_of_game as_black
                 :: three_puts)) /\
  maxTurn (session (final (init_of as_black true :: started_of_game as_black
                           :: three_puts))) = Some 2 /\
  currentTurn (session (final (init_of as_black true
                               :: started_of_game as_black :: three_puts)))
  = 3.
Proof. repeat apply conj; vm_compute; reflexivity. Qed.

(** C6 at the reply ["abc"] to the request that is in flight. *)
Lemma C6_witness :
  exists st',
    step ready_black (FetchSettled (FetchResponse true "200" (inl "abc")))
    = Some st' /\
    engine (session st') = Some (putStone board_of_row (PosStr "abc")) /\
    currentTurn (session st') = currentTurn (session ready_black) + 1 /\
    console (process st')
    = (console (process ready_black)
       ++ [Js.ConsoleLog "Curl response:" "abc"])%list.
Proof.
  apply (C6_reply_applied_unchecked ready_black board_of_row 0 "200" "abc").
  - vm_compute; reflexivity.
  - vm_compute; reflexivity.
  - vm_compute; reflexivity.
Defined.

(** C7 at a run in which the account wins and the text is published. *)
Lemma C7_witness :
  run initial [init_of as_black true; started_of_game as_black;
               Message (MsgEnded won)]
  = Some (final [init_of as_black true; started_of_game as_black;
                 Message (MsgEnded won)]) /\
  map (fun b => text_serif (body_text b))
    (posts (process (final [init_of as_black true; started_of_game as_black;
                            Message (MsgEnded won)]))) = [iWon] /\
  Forall (fun b => exhibition (text_serif (body_text b)) = false)
    (posts (process (final [init_of as_black true; started_of_game as_black;
                            Message (MsgEnded won)]))).
Proof.
  split; [vm_compute; reflexivity|]. split; [vm_compute; reflexivity|].
  exact (proj1 (C7_exhibition_text_never_chosen
                  [init_of as_black true; started_of_game as_black;
                   Message (MsgEnded won)]
                  (final [init_of as_black true; started_of_game as_black;
                          Message (MsgEnded won)])
                  eq_refl)).
Defined.

(** C9 at a run with two triggers and no reply. *)
Lemma C9_witness :
  forallb is_message [init_of as_black true; started_of_game as_black;
                      put_of None 0; put_of None 3] = true /\
  inflight (process (final [init_of as_black true; started_of_game as_black;
                            put_of None 0; put_of None 3]))
  = (inflight (process initial)
     + countEvents triggers initial
         [init_of as_black true; started_of_game as_black;
          put_of None 0; put_of None 3])%nat /\
  thinkCalls (final [init_of as_black true; started_of_game as_black;
                     put_of None 0; put_of None 3])
  = (thinkCalls initial
     + countEvents triggers initial
         [init_of as_black true; started_of_game as_black;
          put_of None 0; put_of None 3])%nat.
Proof.
  split; [vm_compute; reflexivity|].
  apply (C9_each_trigger_sends_a_request
           [init_of as_black true; started_of_game as_black;
            put_of None 0; put_of None 3]
           initial
           (final [init_of as_black true; started_of_game as_black;
                   put_of None 0; put_of None 3])).
  - vm_compute; reflexivity.
  - vm_compute; reflexivity.
Defined.

(** C9 fails as stated.  [started] sends the first request; two logged
    stones later it is black's turn again and a second request is sent
    while the first is outstanding.  Both replies are then applied.  A
    [started] message that arrives twice sends two requests as well. *)
Lemma C9_counterexample :
  run initial [init_of as_black true; started_of_game as_black;
               put_of None 0; put_of None 3]
  = Some (final [init_of as_black true; started_of_game as_black;
                 put_of None 0; put_of None 3]) /\
  inflight (process (final [init_of as_black true; started_of_game as_black;
                            put_of None 0; put_of None 3])) = 2%nat /\
  List.length
    (fetches (process (final [init_of as_black true;
                              started_of_game as_black;
                              put_of None 0; put_of None 3]))) = 2%nat /\
  option_map (fun st => currentTurn (session st))
    (run initial [init_of as_black true; started_of_game as_black;
                  put_of None 0; put_of None 3; replies "1"; replies "2"])
  = Some 4 /\
  option_map (fun st => inflight (process st))
    (run initial [init_of as_black true; started_of_game as_black;
                  started_of_game as_black])
  = Some 2%nat.
Proof. repeat apply conj; vm_compute; reflexivity. Qed.


End Runs.

(** ** Further facts about the code *)

Section Further.

Context {reversi : ReversiEngine} {config : Config}.

(** *** The board on the wire *)

Lemma concat_digit (d : ascii) (l : list string) :
  concat EmptyString (String d EmptyString :: l)
  = String d (concat EmptyString l).
Proof. destruct l; reflexivity. Qed.

Lemma cellToString_digit (c : Cell) :
  cellToString c = String (cellDigit c) EmptyString.
Proof. destruct c as [| |[|]]; reflexivity. Qed.

Lemma board_digits (b : list Cell) :
  concat EmptyString (map cellToString b)
  = string_of_list_ascii (map cellDigit b).
Proof.
  induction b as [|c b IH]; [reflexivity|].
  simpl map. rewrite cellToString_digit, concat_digit, IH. reflexivity.
Qed.

Lemma get_of_list (l : list ascii) (n : nat) :
  String.get n (string_of_list_ascii l) = nth_error l n.
Proof.
  revert n. induction l as [|c l IH]; intros [|n]; simpl; auto.
Qed.

Lemma length_of_list (l : list ascii) :
  String.length (string_of_list_ascii l) = List.length l.
Proof. induction l; simpl; auto. Qed.

(** X1.  [boardStateToString] writes one character for each cell, in the order
    of the board: ['0'] for [null], ['1'] for black and ['2'] for anything
    else, so a white stone and an [undefined] cell are written alike. *)
Theorem boardStateToString_cells (e : EngineGame) :
  String.length (boardStateToString e) = List.length (engine_board e) /\
  (forall n,
      String.get n (boardStateToString e)
      = option_map cellDigit (nth_error (engine_board e) n)) /\
  (forall n, String.get n (boardStateToString e) = Some "0"%char <->
             nth_error (engine_board e) n = Some CellNull) /\
  (forall n, String.get n (boardStateToString e) = Some "1"%char <->
             nth_error (engine_board e) n = Some (CellStone BLACK)) /\
  (forall n, String.get n (boardStateToString e) = Some "2"%char <->
             nth_error (engine_board e) n = Some (CellStone WHITE) \/
             nth_error (engine_board e) n = Some CellUndefined).
Proof.
  unfold boardStateToString. rewrite board_digits.
  assert (G : forall n,
             String.get n (string_of_list_ascii
                             (map cellDigit (engine_board e)))
             = option_map cellDigit (nth_error (engine_board e) n)).
  { intros n. rewrite get_of_list. apply nth_error_map. }
  split; [now rewrite length_of_list, length_map|].
  split; [exact G|].
  repeat split; intros H; rewrite G in *;
    destruct (nth_error (engine_board e) n) as [[| |[|]]|];
    simpl in *; try discriminate; try reflexivity; auto;
    destruct H; discriminate.
Qed.

(** *** Reading the reply *)

(** X3.  [executeCurlCommand] for every way [exec] can settle.  A number is
    returned only from an empty error output, lies in 0..63, and nothing is
    written; any error output makes the call throw, whatever the text of the
    reply is; an error of [exec] is thrown on as it is; and every error
    thrown is written to the console once, with its message. *)
Theorem executeCurlCommand_outcomes (r : ExecResult) :
  (forall n,
      snd (executeCurlCommand r) = inr n ->
      0 <= n <= 63 /\ fst (executeCurlCommand r) = [] /\
      exists stdout, r = ExecDone stdout EmptyString /\
                     Js.parseInt (Js.trim stdout) = Some n) /\
  (forall error,
      snd (executeCurlCommand r) = inl error ->
      fst (executeCurlCommand r)
      = [Js.ConsoleError "Error in executeCurlCommand:" (Js.message error)]) /\
  (forall stdout stderr,
      r = ExecDone stdout stderr -> stderr <> EmptyString ->
      snd (executeCurlCommand r)
      = inl (Js.MkError ("Error executing curl command: " ++ stderr))) /\
  (forall e, r = ExecRejected e -> snd (executeCurlCommand r) = inl e).
Proof.
  unfold executeCurlCommand. split; [|split; [|split]].
  - intros n H.
    destruct r as [e|stdout [|c stderr]]; simpl in *; try discriminate H.
    destruct (decodeResponse stdout) as [e|m] eqn:E; simpl in *;
      [discriminate H|]. injection H as <-.
    apply decodeResponse_inr in E. destruct E as [E B].
    split; [exact B|]. split; [reflexivity|].
    exists stdout. split; [reflexivity|exact E].
  - intros error H.
    destruct r as [e|stdout stderr]; simpl in *.
    + now injection H as <-.
    + destruct (Js.truthy_string stderr); simpl in *.
      * now injection H as <-.
      * destruct (decodeResponse stdout); simpl in *;
          [now injection H as <-|discriminate H].
  - intros stdout stderr -> Hn. simpl. unfold Js.truthy_string.
    apply String.eqb_neq in Hn. now rewrite Hn.
  - intros e ->. reflexivity.
Qed.

(** *** The other player *)

(** X4.  [get user] gives the other player of the game: for an account that is
    one of the two players (whose ids differ and are those of the two user
    records), the user returned is a player whose id is not the account's.
    For an account that is neither player it is [user1]. *)
Theorem user_is_the_opponent (s : Session) (g : Game) (a : User) :
  game s = Some g -> account s = Some a ->
  user_id (user1 g) = user1Id g -> user_id (user2 g) = user2Id g ->
  user1Id g <> user2Id g ->
  exists u,
    user s = Some u /\
    (user_id a = user1Id g -> u = user2 g /\ user_id u <> user_id a) /\
    (user_id a = user2Id g -> u = user1 g /\ user_id u <> user_id a) /\
    (user_id a <> user1Id g -> u = user1 g).
Proof.
  intros Hg Ha H1 H2 Hd. unfold user. rewrite Hg, Ha.
  destruct (String.eqb_spec (user1Id g) (user_id a)) as [E|N];
    eexists; (split; [reflexivity|]); repeat split; try congruence.
Qed.

(** *** Publishing *)

Lemma step_silent (st st' : State) (ev : event) :
  step st ev = Some st' -> silent ev ->
  allowPost (session st) <> Some true /\ posts (process st) = [] ->
  allowPost (session st') <> Some true /\ posts (process st') = [].
Proof.
  intros H Hs [Ha Hp].
  destruct ev as [[b|b|b|b|t]|r|k f]; handlers H; simpl in *;
    try (split; [exact Ha|exact Hp]); try congruence;
    try (split; [congruence|exact Hp]).
  split; [|exact Hp]. unfold allowPost. simpl. unfold publishes in Hs.
  destruct (find _ (init_form b)); congruence.
Qed.

(** X5.  When no form allows publishing, nothing is ever published: in a run
    from the new session in which every [_init_] message has a form
    without a ['publish'] item set to true, [post] sends no request,
    whatever else arrives. *)
Theorem nothing_published_unless_allowed (evs : list event) (st : State) :
  run initial evs = Some st ->
  Forall silent evs ->
  posts (process st) = [].
Proof.
  intros H F.
  assert (G : forall st0,
             run st0 evs = Some st ->
             allowPost (session st0) <> Some true /\
             posts (process st0) = [] ->
             allowPost (session st) <> Some true /\
             posts (process st) = []).
  { clear H. induction F as [|ev rest Hev _ IH]; simpl; intros st0 H I.
    - now injection H as <-.
    - destruct (step st0 ev) as [st1|] eqn:E; [|discriminate].
      apply (IH st1 H). eapply step_silent; eauto. }
  apply (G initial H). split; [discriminate|reflexivity].
Qed.

Lemma step_post_fields (st st' : State) (ev : event) :
  step st ev = Some st' ->
  Forall (fun b => body_visibility b = "home" /\ body_i b = config_i)
         (posts (process st)) ->
  Forall (fun b => body_visibility b = "home" /\ body_i b = config_i)
         (posts (process st')).
Proof.
  intros H F.
  destruct ev as [[b|b|b|b|t]|r|k f]; handlers H; simpl; auto.
  all: apply Forall_app; split; [exact F|]; repeat constructor.
Qed.

(** X6.  Every request that [post] sends, in every run, has the visibility
    ['home'] and carries the token of the configuration. *)
Theorem posts_are_home_notes (evs : list event) (st : State) :
  run initial evs = Some st ->
  Forall (fun b => body_visibility b = "home" /\ body_i b = config_i)
         (posts (process st)).
Proof.
  intros H.
  assert (G : forall st0,
             run st0 evs = Some st ->
             Forall (fun b => body_visibility b = "home" /\
                              body_i b = config_i) (posts (process st0)) ->
             Forall (fun b => body_visibility b = "home" /\
                              body_i b = config_i) (posts (process st))).
  { clear H. induction evs as [|ev rest IH]; simpl; intros st0 H F.
    - now injection H as <-.
    - destruct (step st0 ev) as [st1|] eqn:E; [|discriminate].
      apply (IH st1 H). eapply step_post_fields; eauto. }
  apply (G initial H). constructor.
Qed.

(** *** Leaving *)

Lemma step_signalled (st st' : State) (ev : event) :
  step st ev = Some st' ->
  (exited (process st) = true \/ ending (process st) <> [] ->
   In OutEnded (sent (process st))) ->
  (exited (process st') = true \/ ending (process st') <> [] ->
   In OutEnded (sent (process st'))).
Proof.
  intros H I.
  destruct ev as [[b|b|b|b|t]|r|k f]; handlers H; simpl in *; intros HX;
    first
      [ solve [apply in_or_app; right; left; reflexivity]
      | apply I;
        first
          [ left; congruence
          | right; intros Z;
            match goal with
            | N : nth_error _ _ = Some _ |- _ =>
                rewrite Z in N; destruct k; discriminate N
            end
          | destruct HX as [X|X]; [left; congruence|right; exact X] ] ].
Qed.

(** X7.  The process never leaves without telling the parent: in every run,
    once [process.exit] has been called (on [started] with free placement,
    or at the end of [onEnded]) the [ended] message has been sent. *)
Theorem exit_only_after_ended_sent (evs : list event) (st : State) :
  run initial evs = Some st ->
  exited (process st) = true ->
  In OutEnded (sent (process st)).
Proof.
  intros H X.
  assert (G : forall st0,
             run st0 evs = Some st ->
             (exited (process st0) = true \/ ending (process st0) <> [] ->
              In OutEnded (sent (process st0))) ->
             (exited (process st) = true \/ ending (process st) <> [] ->
              In OutEnded (sent (process st)))).
  { clear H X. induction evs as [|ev rest IH]; simpl; intros st0 H I.
    - now injection H as <-.
    - destruct (step st0 ev) as [st1|] eqn:E; [|discriminate].
      apply (IH st1 H). eapply step_signalled; eauto. }
  apply (G initial H); [|now left].
  simpl. intros [Y|Y]; [discriminate Y|now elim Y].
Qed.


(** *** The requests of think *)

Lemma step_turn_indicator (st st' : State) (ev : event) (g : Game) :
  step st ev = Some st' ->
  is_setup ev = false ->
  game (session st) = Some g ->
  game (session st') = Some g /\
  exists new,
    fetches (process st') = (fetches (process st) ++ new)%list /\
    Forall (fun r => req_turn r = turnValue g) new.
Proof.
  intros H Hs Hg.
  destruct ev as [[b|b|b|b|t]|r|k f]; try discriminate Hs;
    handlers H; simpl in *;
    (split; [congruence|]);
    first [ exists []; split; [now rewrite app_nil_r|constructor]
          | eexists; split; [reflexivity|];
            repeat constructor; simpl; congruence ].
Qed.

(** X8.  The turn that [think] reports to the inference service is read from
    [this.game], the record received with [_init_] or [started], not from
    the engine: between two such messages every request carries the same
    turn indicator, however many stones are placed and whoever is to move;
    it is ['0'] only if that record has black as its [turn]. *)
Theorem turn_indicator_is_fixed
    (evs : list event) (st st' : State) (g : Game) :
  run st evs = Some st' ->
  game (session st) = Some g ->
  forallb (fun ev => negb (is_setup ev)) evs = true ->
  exists new,
    fetches (process st') = (fetches (process st) ++ new)%list /\
    Forall (fun r => req_turn r = turnValue g) new /\
    (turnValue g = "0" <-> game_turn g = Some BLACK) /\
    (turnValue g = "1" <-> game_turn g <> Some BLACK).
Proof.
  intros H Hg Hs.
  assert (T : (turnValue g = "0" <-> game_turn g = Some BLACK) /\
              (turnValue g = "1" <-> game_turn g <> Some BLACK)).
  { unfold turnValue, BLACK. destruct (game_turn g) as [[|]|]; simpl;
      repeat split; intros X; try congruence; try discriminate X;
      try (now elim X). }
  revert st H Hg. induction evs as [|ev rest IH]; simpl; intros st H Hg.
  - injection H as <-. exists []. rewrite app_nil_r. auto.
  - destruct (step st ev) as [st1|] eqn:E; [|discriminate].
    simpl in Hs. apply andb_true_iff in Hs. destruct Hs as [Hev Hrest].
    apply negb_true_iff in Hev.
    destruct (step_turn_indicator st st1 ev g E Hev Hg)
      as (Hg1 & new1 & F1 & A1).
    destruct (IH Hrest st1 H Hg1) as (new2 & F2 & A2 & _).
    exists (new1 ++ new2)%list. split; [|split; [|exact T]].
    + now rewrite F2, F1, app_assoc.
    + apply Forall_app. auto.
Qed.

Lemma step_requests (st st' : State) (ev : event) :
  step st ev = Some st' ->
  (inflight (process st) <= thinkCalls st)%nat /\
  (fetches (process st) <> [] -> engine (session st) <> None) ->
  (inflight (process st') <= thinkCalls st')%nat /\
  (fetches (process st') <> [] -> engine (session st') <> None).
Proof.
  unfold thinkCalls. intros H [I1 I2].
  destruct ev as [[b|b|b|b|t]|r|k f]; handlers H; simpl in *;
    rewrite ?length_app; simpl;
    (split; [lia|]); try exact I2; try discriminate;
    try (intros _; discriminate);
    try (intros X; apply I2 in X; congruence).
Qed.

(** X9.  No request goes out before there is an engine, and no more requests
    are outstanding than were sent: in every run the requests in flight
    are at most the calls of [think], and once [think] has been called
    the engine and [botColor] are defined. *)
Theorem requests_need_an_engine (evs : list event) (st : State) :
  run initial evs = Some st ->
  (inflight (process st) <= thinkCalls st)%nat /\
  ((0 < thinkCalls st)%nat ->
   engine (session st) <> None /\ botColor (session st) <> None).
Proof.
  intros H.
  assert (G : forall st0,
             run st0 evs = Some st ->
             (inflight (process st0) <= thinkCalls st0)%nat /\
             (fetches (process st0) <> [] -> engine (session st0) <> None) ->
             (inflight (process st) <= thinkCalls st)%nat /\
             (fetches (process st) <> [] -> engine (session st) <> None)).
  { clear H. induction evs as [|ev rest IH]; simpl; intros st0 H I.
    - now injection H as <-.
    - destruct (step st0 ev) as [st1|] eqn:E; [|discriminate].
      apply (IH st1 H). eapply step_requests; eauto. }
  destruct (G initial H) as [G1 G2].
  { split; [simpl; lia|]. intros X. now elim X. }
  split; [exact G1|]. intros Hpos.
  assert (He : engine (session st) <> None).
  { apply G2. unfold thinkCalls in Hpos.
    destruct (fetches (process st)); [simpl in Hpos; lia|discriminate]. }
  split; [exact He|].
  now apply (run_started_fields evs initial st H initial_started_fields).
Qed.

(** X10.  A failure of the request is dropped: when [fetch] rejects, the status
    is no success, or the body cannot be read, the session object is left
    as it was, one error line is written, the request is no longer in
    flight, no new request is sent (there is no retry) and the process
    stays. *)
Theorem think_failure_is_dropped
    (st : State) (n : nat) (r : FetchResult) (error : string) :
  exited (process st) = false ->
  inflight (process st) = S n ->
  (r = FetchRejected error \/
   (exists status text, r = FetchResponse false status text /\
      error = "HTTP error! status: " ++ status) \/
   (exists status, r = FetchResponse true status (inr error))) ->
  exists st',
    step st (FetchSettled r) = Some st' /\
    session st' = session st /\
    exited (process st') = false /\
    inflight (process st') = n /\
    fetches (process st') = fetches (process st) /\
    sent (process st') = sent (process st) /\
    console (process st')
    = (console (process st)
       ++ [Js.ConsoleError "Error sending request:" error])%list.
Proof.
  intros He Hi Hr. unfold step. rewrite He, Hi.
  destruct Hr as [->|[(status & text & -> & ->)|(status & ->)]];
    eexists; (split; [reflexivity|]); simpl; rewrite ?Hi; auto 10.
Qed.

(** *** The engine *)

Lemma step_engine (st st' : State) (ev : event) (e : EngineGame) :
  step st ev = Some st' ->
  is_started ev = false ->
  engine (session st) = Some e ->
  engine (session st')
  = Some (match appliedPos st ev with
          | Some p => putStone e p
          | None => e
          end).
Proof.
  intros H Hs He. unfold appliedPos, applies.
  destruct ev as [[b|b|b|b|t]|r|k f]; try discriminate Hs;
    handlers H; simpl in *; try congruence.
  destruct r as [?|[|] ? [?|?]]; simpl; congruence.
Qed.

(** X11.  The engine is only ever changed by [putStone]: from a session with an
    engine, a run without a [started] message leaves the engine that
    results from putting, in the order of arrival, the positions of the
    applied log messages and the texts of the applied replies. *)
Theorem engine_replays_applied_positions
    (evs : list event) (st st' : State) (e : EngineGame) :
  run st evs = Some st' ->
  engine (session st) = Some e ->
  forallb (fun ev => negb (is_started ev)) evs = true ->
  engine (session st')
  = Some (fold_left putStone (appliedPositions st evs) e).
Proof.
  revert st e. induction evs as [|ev rest IH]; simpl; intros st e H He Hs.
  - injection H as <-. exact He.
  - destruct (step st ev) as [st1|] eqn:E; [|discriminate].
    apply andb_true_iff in Hs. destruct Hs as [Hev Hrest].
    apply negb_true_iff in Hev.
    pose proof (step_engine st st1 ev e E Hev He) as He1.
    rewrite (IH st1 _ H He1 Hrest).
    destruct (appliedPos st ev); reflexivity.
Qed.

(** X12.  A [started] message in the middle of a game starts the engine anew
    but not the session: the engine is built again from the map and
    [maxTurn] is set again, while [currentTurn] keeps its count and a
    request that is still in flight stays so; its reply is then applied to
    the new engine. *)
Theorem started_again_keeps_the_count
    (st : State) (msg : StartedBody) (a : User) (n : nat)
    (status nextMove : string) :
  exited (process st) = false ->
  canPutEverywhere (started_game msg) = false ->
  account (session st) = Some a ->
  inflight (process st) = S n ->
  exists st' st'',
    step st (Message (MsgStarted msg)) = Some st' /\
    engine (session st')
    = Some (newGame (game_map (started_game msg))
              {| opt_isLlotheo := isLlotheo (started_game msg);
                 opt_canPutEverywhere := false;
                 opt_loopedBoard := loopedBoard (started_game msg) |}) /\
    maxTurn (session st') = Some (maxTurnOf (started_game msg)) /\
    currentTurn (session st') = currentTurn (session st) /\
    (S n <= inflight (process st'))%nat /\
    step st' (FetchSettled (FetchResponse true status (inl nextMove)))
    = Some st'' /\
    engine (session st'')
    = Some (putStone
              (newGame (game_map (started_game msg))
                 {| opt_isLlotheo := isLlotheo (started_game msg);
                    opt_canPutEverywhere := false;
                    opt_loopedBoard := loopedBoard (started_game msg) |})
              (PosStr nextMove)) /\
    currentTurn (session st'') = currentTurn (session st) + 1.
Proof.
  intros He Hf Ha Hi.
  assert (S1 : exists st',
             step st (Message (MsgStarted msg)) = Some st' /\
             exited (process st') = false /\
             engine (session st')
             = Some (newGame (game_map (started_game msg))
                       {| opt_isLlotheo := isLlotheo (started_game msg);
                          opt_canPutEverywhere := false;
                          opt_loopedBoard := loopedBoard (started_game msg) |})
             /\
             maxTurn (session st') = Some (maxTurnOf (started_game msg)) /\
             currentTurn (session st') = currentTurn (session st) /\
             (exists m, inflight (process st') = S m /\ (n <= m)%nat)).
  { unfold step. rewrite He. simpl. unfold onStarted. rewrite Hf. simpl.
    rewrite Ha. unfold think. simpl. unfold maxTurnOf. rewrite Hf.
    destruct (holdsBlack _ _); eexists; (split; [reflexivity|]); simpl;
      rewrite ?Hi; repeat split; auto; eexists; split;
      try reflexivity; lia. }
  destruct S1 as (st' & H1 & He1 & Heng & Hm & Hc & m & Hi1 & Hle).
  exists st'. eexists.
  split; [exact H1|]. split; [exact Heng|]. split; [exact Hm|].
  split; [exact Hc|]. split; [lia|].
  unfold step. rewrite He1, Hi1. simpl. unfold think_resume. simpl.
  rewrite Heng. split; [reflexivity|]. simpl. split; [reflexivity|].
  now rewrite Hc.
Qed.

(** *** Messages without effect *)

(** X13.  A message whose type [onMessage] has no case for, and a log message
    whose operation is not ['put'], change nothing and throw nothing, in
    any state of the session, also before [_init_]. *)
Theorem ignored_events_change_nothing (evs : list event) (st : State) :
  forallb ignored evs = true -> run st evs = Some st.
Proof.
  induction evs as [|ev rest IH]; simpl; intros H; [reflexivity|].
  apply andb_true_iff in H. destruct H as [Hev Hrest].
  assert (E : step st ev = Some st).
  { unfold step. destruct (exited (process st)); [reflexivity|].
    destruct ev as [[b|b|b|b|t]|r|k f]; try discriminate Hev; simpl.
    - unfold onLog. simpl in Hev. apply negb_true_iff in Hev.
      rewrite Hev. now destruct (notApplied _ _).
    - reflexivity. }
  rewrite E. apply IH. exact Hrest.
Qed.


End Further.

(** ** Further runs on the small engine *)

Module FurtherRuns.

Import Alternating.

(** The opponent of the account in [as_black] is alice. *)
Lemma user_is_the_opponent_witness :
  exists u,
    user (session ready_black) = Some u /\
    (user_id ai = user1Id as_black ->
     u = user2 as_black /\ user_id u <> user_id ai) /\
    (user_id ai = user2Id as_black ->
     u = user1 as_black /\ user_id u <> user_id ai) /\
    (user_id ai <> user1Id as_black -> u = user1 as_black).
Proof.
  apply (user_is_the_opponent (session ready_black) as_black ai).
  - vm_compute; reflexivity.
  - vm_compute; reflexivity.
  - vm_compute; reflexivity.
  - vm_compute; reflexivity.
  - vm_compute. discriminate.
Defined.

(** A whole game with a form that does not allow publishing. *)
Lemma nothing_published_unless_allowed_witness :
  run initial [init_of as_black false; started_of_game as_black;
               put_of (Some "a") 0; Message (MsgEnded won);
               PostSettled 0 None]
  = Some (final [init_of as_black false; started_of_game as_black;
                 put_of (Some "a") 0; Message (MsgEnded won);
                 PostSettled 0 None]) /\
  exited (process (final [init_of as_black false; started_of_game as_black;
                          put_of (Some "a") 0; Message (MsgEnded won);
                          PostSettled 0 None])) = true /\
  posts (process (final [init_of as_black false; started_of_game as_black;
                         put_of (Some "a") 0; Message (MsgEnded won);
                         PostSettled 0 None])) = [].
Proof.
  split; [vm_compute; reflexivity|]. split; [vm_compute; reflexivity|].
  apply (nothing_published_unless_allowed
           [init_of as_black false; started_of_game as_black;
            put_of (Some "a") 0; Message (MsgEnded won);
            PostSettled 0 None]).
  - vm_compute; reflexivity.
  - repeat constructor.
Defined.

(** The note published at the end of a won game. *)
Lemma posts_are_home_notes_witness :
  List.length
    (posts (process (final [init_of as_black true; started_of_game as_black;
                            Message (MsgEnded won)]))) = 1%nat /\
  Forall (fun b => body_visibility b = "home" /\ body_i b = config_i)
    (posts (process (final [init_of as_black true; started_of_game as_black;
                            Message (MsgEnded won)]))).
Proof.
  split; [vm_compute; reflexivity|].
  apply (posts_are_home_notes
           [init_of as_black true; started_of_game as_black;
            Message (MsgEnded won)]).
  vm_compute; reflexivity.
Defined.

(** The process has exited at the end of a game. *)
Lemma exit_only_after_ended_sent_witness :
  In OutEnded
    (sent (process (final [init_of as_black true; started_of_game as_black;
                           Message (MsgEnded won);
                           PostSettled 0 (Some "timeout")]))).
Proof.
  apply (exit_only_after_ended_sent
           [init_of as_black true; started_of_game as_black;
            Message (MsgEnded won); PostSettled 0 (Some "timeout")]).
  - vm_compute; reflexivity.
  - vm_compute; reflexivity.
Defined.

(** Two stones after [started]: black is to move again and the second
    request carries the same indicator as any other. *)
Lemma turn_indicator_is_fixed_witness :
  exists new,
    fetches (process (final [init_of as_black true; started_of_game as_black;
                             put_of None 0; put_of None 3]))
    = (fetches (process ready_black) ++ new)%list /\
    Forall (fun r => req_turn r = turnValue as_black) new /\
    (turnValue as_black = "0" <-> game_turn as_black = Some BLACK) /\
    (turnValue as_black = "1" <-> game_turn as_black <> Some BLACK).
Proof.
  apply (turn_indicator_is_fixed [put_of None 0; put_of None 3] ready_black).
  - vm_compute; reflexivity.
  - vm_compute; reflexivity.
  - vm_compute; reflexivity.
Defined.

(** One request sent and still outstanding. *)
Lemma requests_need_an_engine_witness :
  thinkCalls ready_black = 1%nat /\
  (inflight (process ready_black) <= thinkCalls ready_black)%nat /\
  ((0 < thinkCalls ready_black)%nat ->
   engine (session ready_black) <> None /\
   botColor (session ready_black) <> None).
Proof.
  split; [vm_compute; reflexivity|].
  apply (requests_need_an_engine
           [init_of as_black true; started_of_game as_black]).
  vm_compute; reflexivity.
Defined.

(** The service answers 500 to the request in flight. *)
Lemma think_failure_is_dropped_witness :
  exists st',
    step ready_black (FetchSettled (FetchResponse false "500" (inl "oops")))
    = Some st' /\
    session st' = session ready_black /\
    exited (process st') = false /\
    inflight (process st') = 0%nat /\
    fetches (process st') = fetches (process ready_black) /\
    sent (process st') = sent (process ready_black) /\
    console (process st')
    = (console (process ready_black)
       ++ [Js.ConsoleError "Error sending request:"
             "HTTP error! status: 500"])%list.
Proof.
  apply (think_failure_is_dropped ready_black 0
           (FetchResponse false "500" (inl "oops"))
           "HTTP error! status: 500").
  - vm_compute; reflexivity.
  - vm_compute; reflexivity.
  - right. left. exists "500", (inl "oops"). split; reflexivity.
Defined.

(** A logged stone, a reply, and a log message that is no ['put']. *)
Lemma engine_replays_applied_positions_witness :
  appliedPositions ready_black
    [put_of (Some "a") 0; replies "3";
     Message (MsgLog {| log_id := None; log_operation := "pass";
                        log_pos := PosNum 1 |})]
  = [PosNum 0; PosStr "3"] /\
  engine (session (final [init_of as_black true; started_of_game as_black;
                          put_of (Some "a") 0; replies "3";
                          Message (MsgLog {| log_id := None;
                                             log_operation := "pass";
                                             log_pos := PosNum 1 |})]))
  = Some (fold_left putStone
            (appliedPositions ready_black
               [put_of (Some "a") 0; replies "3";
                Message (MsgLog {| log_id := None; log_operation := "pass";
                                   log_pos := PosNum 1 |})])
            board_of_row).
Proof.
  split; [vm_compute; reflexivity|].
  apply (engine_replays_applied_positions
           [put_of (Some "a") 0; replies "3";
            Message (MsgLog {| log_id := None; log_operation := "pass";
                               log_pos := PosNum 1 |})]
           ready_black).
  - vm_compute; reflexivity.
  - vm_compute; reflexivity.
  - vm_compute; reflexivity.
Defined.

(** [started] arrives again after one logged stone, with the first
    request still in flight. *)
Lemma started_again_keeps_the_count_witness :
  exists st' st'',
    step (final [init_of as_black true; started_of_game as_black;
                 put_of None 0])
         (Message (MsgStarted {| started_game := as_black |})) = Some st' /\
    engine (session st') = Some board_of_row /\
    maxTurn (session st') = Some (maxTurnOf as_black) /\
    currentTurn (session st') = 1 /\
    (1 <= inflight (process st'))%nat /\
    step st' (FetchSettled (FetchResponse true "200" (inl "2"))) = Some st'' /\
    engine (session st'') = Some (putStone board_of_row (PosStr "2")) /\
    currentTurn (session st'') = 1 + 1.
Proof.
  apply (started_again_keeps_the_count
           (final [init_of as_black true; started_of_game as_black;
                   put_of None 0])
           {| started_game := as_black |} ai 0 "200" "2").
  - vm_compute; reflexivity.
  - vm_compute; reflexivity.
  - vm_compute; reflexivity.
  - vm_compute; reflexivity.
Defined.

(** An unknown message and a log message that is no ['put'], sent to a
    session that has not had its [_init_]. *)
Lemma ignored_events_change_nothing_witness :
  run initial
    [Message (MsgOther "ping");
     Message (MsgLog {| log_id := Some "x"; log_operation := "pass";
                        log_pos := PosNum 0 |})]
  = Some initial.
Proof.
  apply (ignored_events_change_nothing
           [Message (MsgOther "ping");
            Message (MsgLog {| log_id := Some "x"; log_operation := "pass";
                               log_pos := PosNum 0 |})]
           initial).
  vm_compute; reflexivity.
Defined.

End FurtherRuns.
